(** * The searchable select widget ([Select]) as a state machine

    A shallow embedding of the [Select] component: its props, its hook
    state ([useState] cells and the [useRef] timer handle), the browser
    timer queue it talks to, and every handler of the component, written
    as state-passing functions in a small action monad.  The theorems at
    the end of the file relate the behaviour of these handlers to the
    written specification of the widget. *)

From Stdlib Require Import ZArith String Ascii List Bool Lia DecimalString.
Import ListNotations.

Set Warnings "-register-all".

Local Open Scope string_scope.
Local Open Scope list_scope.
Local Open Scope Z_scope.

(* ================================================================== *)
(** ** JavaScript values and the operators the component applies to them *)
(* ================================================================== *)

Module Js.

(** Option values are of an arbitrary type [V].  Primitives are compared
    by content, objects carry the identity ([ref]) of their allocation.
    Numbers are restricted to integers, which is all the component's own
    arithmetic (indices) ever produces. *)
Inductive Val : Type :=
| Undefined
| Null
| Bool (b : bool)
| Num (n : Z)
| Str (s : string)
| Obj (ref : nat) (fields : list (string * Val)).

(** [typeof v === 'string'] *)
Definition isString (v : Val) : bool :=
  match v with Str _ => true | _ => false end.

(** [a === b]: content for primitives, identity for objects. *)
Definition strictEq (a b : Val) : bool :=
  match a, b with
  | Undefined, Undefined => true
  | Null, Null => true
  | Bool x, Bool y => Bool.eqb x y
  | Num x, Num y => Z.eqb x y
  | Str x, Str y => String.eqb x y
  | Obj r _, Obj r' _ => Nat.eqb r r'
  | _, _ => false
  end.

Fixpoint lookupField {A : Type} (k : string) (l : list (string * A)) : option A :=
  match l with
  | [] => None
  | (k', v) :: l' => if String.eqb k k' then Some v else lookupField k l'
  end.

(** Modelled from the spec: [isDeepEqual] is imported from the shared
    helper library ([proton-shared/lib/helpers/isDeepEqual]), whose
    source is not part of this component.  The specification describes it
    as deep structural equality, not reference equality: primitives are
    compared by content, objects field by field regardless of identity
    and of the order in which the fields were written. *)
Fixpoint isDeepEqual (a b : Val) {struct a} : bool :=
  match a, b with
  | Undefined, Undefined => true
  | Null, Null => true
  | Bool x, Bool y => Bool.eqb x y
  | Num x, Num y => Z.eqb x y
  | Str x, Str y => String.eqb x y
  | Obj _ fa, Obj _ fb =>
      Nat.eqb (List.length fa) (List.length fb)
      && (fix every (l : list (string * Val)) : bool :=
            match l with
            | [] => true
            | (k, v) :: l' =>
                match lookupField k fb with
                | Some v' => isDeepEqual v v'
                | None => false
                end && every l'
            end) fa
  | _, _ => false
  end.

(** [String(v)] *)
Definition toString (v : Val) : string :=
  match v with
  | Undefined => "undefined"
  | Null => "null"
  | Bool true => "true"
  | Bool false => "false"
  | Num n => NilZero.string_of_int (Z.to_int n)
  | Str s => s
  | Obj _ _ => "[object Object]"
  end.

(** [s.startsWith(search)]: comparison of code units, hence
    case-sensitive. *)
Definition startsWith (s search : string) : bool := String.prefix search s.

(** [a || b] on strings: the empty string is falsy. *)
Definition orString (a b : string) : string :=
  match a with EmptyString => b | _ => a end.

(** [a || b] on optional text ([undefined] and [''] are falsy). *)
Definition orText (a b : option string) : option string :=
  match a with
  | Some (String _ _) => a
  | _ => b
  end.

(** [n || 0] on [number | null]. *)
Definition orZero (n : option Z) : Z :=
  match n with Some i => i | None => 0 end.

Fixpoint findIndexFrom {A : Type} (f : A -> bool) (l : list A) (i : Z) : Z :=
  match l with
  | [] => -1
  | x :: l' => if f x then i else findIndexFrom f l' (i + 1)
  end.

(** [l.findIndex(f)]: the first index whose element satisfies [f], or -1. *)
Definition findIndex {A : Type} (f : A -> bool) (l : list A) : Z :=
  findIndexFrom f l 0.

(** [l.every(f)] *)
Definition every {A : Type} (f : A -> bool) (l : list A) : bool := forallb f l.

Fixpoint mapFrom {A B : Type} (f : A -> Z -> B) (l : list A) (i : Z) : list B :=
  match l with
  | [] => []
  | x :: l' => f x i :: mapFrom f l' (i + 1)
  end.

(** [React.Children.map(l, f)]: a map that also passes the index. *)
Definition mapIndexed {A B : Type} (f : A -> Z -> B) (l : list A) : list B :=
  mapFrom f l 0.

Definition isAlnumChar (c : ascii) : bool :=
  let n := N_of_ascii c in
  ((48 <=? n) && (n <=? 57) || (65 <=? n) && (n <=? 90)
   || (97 <=? n) && (n <=? 122))%N.

Fixpoint allAlnum (s : string) : bool :=
  match s with
  | EmptyString => true
  | String c s' => isAlnumChar c && allAlnum s'
  end.

(** [/^[a-z0-9]+$/i.test(s)] *)
Definition testAlphanumeric (s : string) : bool :=
  match s with
  | EmptyString => false
  | _ => allAlnum s
  end.

End Js.

(* ================================================================== *)
(** ** Props, hook state and the browser window *)
(* ================================================================== *)

(** The props of one [Option] child, as far as [Select] reads them. *)
Module OptionProps.
Record t : Type := mk {
  value : Js.Val;
  children : option string;   (* the rendered label *)
  title : option string
}.
End OptionProps.

(** [FakeSelectChangeEvent<V>] *)
Record FakeSelectChangeEvent : Type := mkChange {
  ev_value : Js.Val;
  ev_selectedIndex : Z
}.

(** [Props<V>].  An absent [value] is [Js.Undefined]; an absent optional
    prop is [None]; a callback prop records whether the owner supplied
    it, its invocations are recorded in the world's call trace. *)
Record Props : Type := mkProps {
  children : list OptionProps.t;
  value : Js.Val;
  placeholder : option string;
  controlledOpen : option bool;          (* the [isOpen] prop *)
  clearSearchAfterProp : option Z;
  getSearchableValue : option (Js.Val -> string);
  onChangeProp : bool;
  onClose : bool;
  onOpen : bool
}.

(** [clearSearchAfter = 500] in the parameter list. *)
Definition clearSearchAfter (p : Props) : Z :=
  match clearSearchAfterProp p with Some ms => ms | None => 500 end.

(** The three [useState] cells. *)
Record State : Type := mkState {
  focusedIndex : option Z;
  uncontrolledOpen : bool;
  search : string
}.

Definition initialState : State :=
  {| focusedIndex := None; uncontrolledOpen := false; search := "" |}.

(** What the component does to the outside. *)
Inductive Call : Type :=
| CallOnOpen
| CallOnClose
| CallOnChange (e : FakeSelectChangeEvent)
| PreventDefault
| FocusAnchor.

(** A timer registered with [window.setTimeout].  The only callback the
    component ever registers is [() => setSearch('')]. *)
Record Timer : Type := mkTimer {
  timerId : Z;
  dueAt : Z
}.

Record World : Type := mkWorld {
  hooks : State;
  searchClearTimeout : option Z;   (* [useRef<number | undefined>] *)
  now : Z;                         (* the window's clock, in ms *)
  timers : list Timer;             (* the window's pending timers *)
  nextTimerId : Z;
  calls : list Call                (* oldest first *)
}.

Definition initialWorld : World :=
  {| hooks := initialState; searchClearTimeout := None;
     now := 0; timers := []; nextTimerId := 1; calls := [] |}.

(* ================================================================== *)
(** ** Actions: handlers read and write the world *)
(* ================================================================== *)

Definition Act (A : Type) : Type := World -> A * World.

Definition ret {A : Type} (a : A) : Act A := fun w => (a, w).

Definition bind {A B : Type} (m : Act A) (k : A -> Act B) : Act B :=
  fun w => let (a, w') := m w in k a w'.

Notation "x <- m ;; k" := (bind m (fun x => k))
  (at level 61, m at next level, right associativity).
Notation "m ;; k" := (bind m (fun _ => k))
  (at level 61, right associativity).

Definition exec {A : Type} (m : Act A) (w : World) : World := snd (m w).

Definition skip : Act unit := ret tt.

Definition getState : Act State := fun w => (hooks w, w).

Definition modifyState (f : State -> State) : Act unit :=
  fun w => (tt, {| hooks := f (hooks w);
                   searchClearTimeout := searchClearTimeout w;
                   now := now w; timers := timers w;
                   nextTimerId := nextTimerId w; calls := calls w |}).

Definition setFocusedIndex (i : option Z) : Act unit :=
  modifyState (fun s => {| focusedIndex := i;
                           uncontrolledOpen := uncontrolledOpen s;
                           search := search s |}).

Definition setUncontrolledOpen (b : bool) : Act unit :=
  modifyState (fun s => {| focusedIndex := focusedIndex s;
                           uncontrolledOpen := b;
                           search := search s |}).

(** [setSearch] is only ever called with an updater or a constant. *)
Definition setSearch (f : string -> string) : Act unit :=
  modifyState (fun s => {| focusedIndex := focusedIndex s;
                           uncontrolledOpen := uncontrolledOpen s;
                           search := f (search s) |}).

Definition readSearchClearTimeout : Act (option Z) :=
  fun w => (searchClearTimeout w, w).

Definition writeSearchClearTimeout (id : Z) : Act unit :=
  fun w => (tt, {| hooks := hooks w; searchClearTimeout := Some id;
                   now := now w; timers := timers w;
                   nextTimerId := nextTimerId w; calls := calls w |}).

(** [window.clearTimeout(id)]: an unknown or undefined handle is ignored. *)
Definition clearTimeout (id : option Z) : Act unit :=
  fun w =>
    (tt, {| hooks := hooks w; searchClearTimeout := searchClearTimeout w;
            now := now w;
            timers := match id with
                      | Some i => filter (fun t => negb (timerId t =? i)) (timers w)
                      | None => timers w
                      end;
            nextTimerId := nextTimerId w; calls := calls w |}).

(** [window.setTimeout(() => setSearch(''), delay)]: a negative delay
    counts as zero; the fresh handle is returned. *)
Definition setTimeout (delay : Z) : Act Z :=
  fun w =>
    (nextTimerId w,
     {| hooks := hooks w; searchClearTimeout := searchClearTimeout w;
        now := now w;
        timers := timers w ++ [ {| timerId := nextTimerId w;
                                   dueAt := now w + Z.max 0 delay |} ];
        nextTimerId := nextTimerId w + 1; calls := calls w |}).

Definition call (c : Call) : Act unit :=
  fun w => (tt, {| hooks := hooks w; searchClearTimeout := searchClearTimeout w;
                   now := now w; timers := timers w;
                   nextTimerId := nextTimerId w; calls := calls w ++ [c] |}).

(** [cb?.(...)] for an optional callback prop. *)
Definition callIfSupplied (supplied : bool) (c : Call) : Act unit :=
  if supplied then call c else skip.

(* ================================================================== *)
(** ** The body of [Select]: values derived during render *)
(* ================================================================== *)

Definition isControlled (p : Props) : bool :=
  match controlledOpen p with Some _ => true | None => false end.

Definition isOpen (p : Props) (s : State) : bool :=
  match controlledOpen p with Some b => b | None => uncontrolledOpen s end.

Definition allOptionValues (p : Props) : list Js.Val :=
  map OptionProps.value (children p).

Definition isNaturallySearchable (p : Props) : bool :=
  Js.every Js.isString (allOptionValues p).

Definition isSearchable (p : Props) : bool :=
  isNaturallySearchable p
  || match getSearchableValue p with Some _ => true | None => false end.

Definition selectedIndex (p : Props) : option Z :=
  let index :=
    Js.findIndex (fun child => Js.strictEq (OptionProps.value child) (value p))
                 (children p) in
  if negb (index =? -1) then Some index else None.

(** [getSearchableValue?.(v) || String(v)] *)
Definition searchableString (p : Props) (v : Js.Val) : string :=
  match getSearchableValue p with
  | Some f => Js.orString (f v) (Js.toString v)
  | None => Js.toString v
  end.

(** The body of the [useEffect(..., [search])] hook, for the render whose
    state is [r]. *)
Definition searchEffect (p : Props) (r : State) : Act unit :=
  match search r with
  | EmptyString => skip
  | _ =>
    if negb (isSearchable p) then skip
    else
      pending <- readSearchClearTimeout ;;
      clearTimeout pending ;;
      id <- setTimeout (clearSearchAfter p) ;;
      writeSearchClearTimeout id ;;
      let indexOfMatchedOption :=
        Js.findIndex (fun v => Js.startsWith (searchableString p v) (search r))
                     (allOptionValues p) in
      if negb (indexOfMatchedOption =? -1)
      then setFocusedIndex (Some indexOfMatchedOption)
      else skip
  end.

Definition open (p : Props) : Act unit :=
  (if isControlled p then callIfSupplied (onOpen p) CallOnOpen
   else setUncontrolledOpen true) ;;
  setFocusedIndex (Some (Js.orZero (selectedIndex p))).

Definition close (p : Props) : Act unit :=
  if isControlled p then callIfSupplied (onClose p) CallOnClose
  else setUncontrolledOpen false.

Definition goToPreviousItem (r : State) : Act unit :=
  match focusedIndex r with
  | Some i => if negb (i =? 0) then setFocusedIndex (Some (i - 1)) else skip
  | None => skip
  end.

Definition goToNextItem (p : Props) (r : State) : Act unit :=
  match focusedIndex r with
  | Some i =>
      if negb (i =? Z.of_nat (List.length (children p)) - 1)
      then setFocusedIndex (Some (i + 1)) else skip
  | None => skip
  end.

Definition handleAnchorClick (p : Props) (r : State) : Act unit :=
  if isOpen p r then close p else open p.

Definition handleAnchorKeydown (p : Props) (key : string) : Act unit :=
  if String.eqb key " " then open p else skip.

Definition handleChange (p : Props) (event : FakeSelectChangeEvent) : Act unit :=
  callIfSupplied (onChangeProp p) (CallOnChange event).

Definition handleMenuKeydown (p : Props) (r : State) (key : string) : Act unit :=
  (if String.eqb key "ArrowUp" then
     call PreventDefault ;; goToPreviousItem r
   else if String.eqb key "ArrowDown" then
     call PreventDefault ;; goToNextItem p r
   else if String.eqb key "Escape" then
     close p ;; call FocusAnchor
   else skip) ;;
  let isAlphanumeric := Js.testAlphanumeric key in
  if isAlphanumeric && isSearchable p && (String.length key =? 1)%nat
  then setSearch (fun s => (s ++ key)%string)
  else skip.

Definition handleChildChange (p : Props) (index : Z) (v : Js.Val) : Act unit :=
  handleChange p {| ev_value := v; ev_selectedIndex := index |}.

(** One rendered [Option]: the child's own props and the three props
    [React.cloneElement] adds ([onChange] is [handleChildChange index]). *)
Record Item : Type := mkItem {
  itemProps : OptionProps.t;
  selected : bool;
  active : bool;
  onChangeIndex : Z
}.

Definition items (p : Props) (r : State) : list Item :=
  Js.mapIndexed
    (fun child index =>
       let childValue := OptionProps.value child in
       {| itemProps := child;
          selected := Js.isDeepEqual childValue (value p);
          active := match focusedIndex r with
                    | Some i => i =? index
                    | None => false
                    end;
          onChangeIndex := index |})
    (children p).

Definition selectedChild (p : Props) : option OptionProps.t :=
  match selectedIndex p with
  | Some i => nth_error (children p) (Z.to_nat i)
  | None => None
  end.

Definition displayedValue (p : Props) : option string :=
  let c := selectedChild p in
  Js.orText
    (Js.orText (match c with Some o => OptionProps.children o | None => None end)
               (match c with Some o => OptionProps.title o | None => None end))
    (placeholder p).

Definition ariaLabel (p : Props) : option string :=
  match selectedChild p with Some o => OptionProps.title o | None => None end.

(* ================================================================== *)
(** ** Events and the event loop *)
(* ================================================================== *)

(** Modelled from the spec: the [Option] component ([../option/Option])
    is not part of the sources at hand; according to the specification,
    clicking or activating an item commits it, i.e. the item calls the
    [onChange] prop it was given with its own value. *)
Definition activateOption (p : Props) (r : State) (i : nat) : Act unit :=
  match nth_error (items p r) i with
  | Some it =>
      handleChildChange p (onChangeIndex it) (OptionProps.value (itemProps it))
  | None => skip
  end.

Inductive Event : Type :=
| AnchorClick                            (* [onClick] of the anchor button *)
| AnchorKeydown (key : string)           (* [onKeyDown] of the anchor button *)
| MenuKeydown (key : string)             (* [onKeyDown] of the list *)
| DropdownClose                          (* [onClose] of the dropdown *)
| ItemChange (index : Z) (v : Js.Val)    (* [items[index].props.onChange(v)] *)
| ItemActivate (i : nat)                 (* the user commits item [i] *)
| Elapse (ms : Z).                       (* [ms] milliseconds go by *)

Definition isDue (t : Z) (tm : Timer) : bool := dueAt tm <=? t.

(** The clock advances (never backwards); the timers that are due leave
    the queue and are returned for execution. *)
Definition advanceClock (ms : Z) : Act (list Timer) :=
  fun w =>
    let t := now w + Z.max 0 ms in
    (filter (isDue t) (timers w),
     {| hooks := hooks w; searchClearTimeout := searchClearTimeout w;
        now := t;
        timers := filter (fun tm => negb (isDue t tm)) (timers w);
        nextTimerId := nextTimerId w; calls := calls w |}).

(** Every timer's callback is [() => setSearch('')]. *)
Fixpoint fire (due : list Timer) : Act unit :=
  match due with
  | [] => skip
  | _ :: rest => setSearch (fun _ => "") ;; fire rest
  end.

Definition handle (p : Props) (r : State) (ev : Event) : Act unit :=
  match ev with
  | AnchorClick => handleAnchorClick p r
  | AnchorKeydown key => handleAnchorKeydown p key
  | MenuKeydown key => handleMenuKeydown p r key
  | DropdownClose => close p
  | ItemChange index v => handleChildChange p index v
  | ItemActivate i => activateOption p r i
  | Elapse ms => due <- advanceClock ms ;; fire due
  end.

(** One turn of the event loop: the handler runs in the closure of the
    last render [r]; the component renders again and the effect that
    depends on [search] runs if [search] has changed. *)
Definition dispatch (p : Props) (ev : Event) : Act unit :=
  r <- getState ;;
  handle p r ev ;;
  r' <- getState ;;
  if String.eqb (search r') (search r) then skip else searchEffect p r'.

Definition step (p : Props) (ev : Event) (w : World) : World :=
  exec (dispatch p ev) w.

(** A history: each event comes with the props of the render it hits. *)
Fixpoint run (h : list (Props * Event)) (w : World) : World :=
  match h with
  | [] => w
  | (p, ev) :: h' => run h' (step p ev w)
  end.

Definition runKeys (p : Props) (keys : list string) (w : World) : World :=
  run (map (fun k => (p, MenuKeydown k)) keys) w.

(* ================================================================== *)
(** ** Sample widgets *)
(* ================================================================== *)

Definition textOption (s : string) : OptionProps.t :=
  {| OptionProps.value := Js.Str s;
     OptionProps.children := Some s;
     OptionProps.title := None |}.

Definition valueOption (v : Js.Val) (label : string) : OptionProps.t :=
  {| OptionProps.value := v;
     OptionProps.children := Some label;
     OptionProps.title := None |}.

Definition plainProps (cs : list OptionProps.t) (v : Js.Val) : Props :=
  {| children := cs; value := v; placeholder := Some "Choose";
     controlledOpen := None; clearSearchAfterProp := None;
     getSearchableValue := None;
     onChangeProp := true; onClose := true; onOpen := true |}.

Definition fruits : Props :=
  plainProps [textOption "apple"; textOption "banana"; textOption "cherry"]
             Js.Undefined.

Definition worldOf (s : State) : World :=
  {| hooks := s; searchClearTimeout := None;
     now := 0; timers := []; nextTimerId := 1; calls := [] |}.

Definition openedAt (i : option Z) (buffer : string) : State :=
  {| focusedIndex := i; uncontrolledOpen := true; search := buffer |}.

(* ================================================================== *)
(** ** Vocabulary of the statements *)
(* ================================================================== *)

Definition lastIndex (p : Props) : Z := Z.of_nat (List.length (children p)) - 1.

Definition isArrowKey (key : string) : Prop :=
  key = "ArrowUp" \/ key = "ArrowDown".

Definition inBounds (p : Props) (w : World) : Prop :=
  exists i, focusedIndex (hooks w) = Some i /\ 0 <= i <= lastIndex p.

(** Two options whose values are the objects [{id: 1}] and [{id: 2}]. *)
Definition idObject (ref : nat) (id : Z) : Js.Val :=
  Js.Obj ref [("id", Js.Num id)].

Definition records : Props :=
  plainProps [valueOption (idObject 1 1) "One"; valueOption (idObject 2 2) "Two"]
             Js.Undefined.

(** The calls an optional callback contributes to the trace. *)
Definition requested (supplied : bool) (c : Call) : list Call :=
  if supplied then [c] else [].

(** A controlled variant of a widget: the owner passes [isOpen]. *)
Definition controlled (b : bool) (p : Props) : Props :=
  {| children := children p; value := value p; placeholder := placeholder p;
     controlledOpen := Some b; clearSearchAfterProp := clearSearchAfterProp p;
     getSearchableValue := getSearchableValue p;
     onChangeProp := onChangeProp p; onClose := onClose p; onOpen := onOpen p |}.

(** The owner holds a structurally equal copy of the second option's
    value, not the object the option was built from. *)
Definition copyOfTwo : Props :=
  plainProps [valueOption (idObject 1 1) "One"; valueOption (idObject 2 2) "Two"]
             (idObject 7 2).

(** Two options with structurally equal values; the owner passes the
    object of the second one. *)
Definition twins : Props :=
  plainProps [valueOption (idObject 1 1) "First"; valueOption (idObject 2 1) "Second"]
             (idObject 2 1).


(** The searchable string in the words of the specification: the result
    of the projection function if one is supplied, else the option's
    string value. *)
Definition specSearchableString (p : Props) (v : Js.Val) : string :=
  match getSearchableValue p with
  | Some f => f v
  | None => Js.toString v
  end.

Definition specMatches (p : Props) (buffer : string) (c : OptionProps.t) : bool :=
  Js.startsWith (specSearchableString p (OptionProps.value c)) buffer.

Definition projectionNeverEmpty (p : Props) : Prop :=
  forall f c, getSearchableValue p = Some f -> In c (children p) ->
              f (OptionProps.value c) <> "".

(** Options are contact ids; the projection maps an id to the contact's
    name, and the first contact has no name. *)
Definition contactName (v : Js.Val) : string :=
  if Js.strictEq v (Js.Str "k2") then "kate" else "".

Definition contacts : Props :=
  {| children := [valueOption (Js.Str "u7") "(no name)";
                  valueOption (Js.Str "k2") "Kate"];
     value := Js.Undefined; placeholder := Some "Choose";
     controlledOpen := None; clearSearchAfterProp := None;
     getSearchableValue := Some contactName;
     onChangeProp := true; onClose := true; onOpen := true |}.

(** The pending timers are at most the one the ref points to. *)
Definition timerInv (w : World) : Prop :=
  timers w = []
  \/ exists t, timers w = [t] /\ searchClearTimeout w = Some (timerId t).

(** The worlds the widget can be in: whatever a history of events leads
    to from the freshly mounted component. *)
Definition reached (h : list (Props * Event)) : World := run h initialWorld.

(** The menu of [fruits] is opened and "b" is typed. *)
Definition typedB : list (Props * Event) :=
  [(fruits, AnchorClick); (fruits, MenuKeydown "b")].

(* ================================================================== *)
(** ** Vocabulary of the further properties *)
(* ================================================================== *)

(** Whether option [c] is a match of the search effect for [buffer]:
    the predicate passed to [findIndex] there. *)
Definition matches (p : Props) (buffer : string) (c : OptionProps.t) : bool :=
  Js.startsWith (searchableString p (OptionProps.value c)) buffer.

(** [indexOfMatchedOption] of the search effect for [buffer]. *)
Definition matchIndex (p : Props) (buffer : string) : Z :=
  Js.findIndex (fun v => Js.startsWith (searchableString p v) buffer)
               (allOptionValues p).

(** The keys the menu takes as typed text: [isAlphanumeric] and
    [e.key.length === 1]. *)
Definition isTypedChar (key : string) : bool :=
  Js.testAlphanumeric key && (String.length key =? 1)%nat.

(** The cursor is null or the index of one of [n] options. *)
Definition focusWithin (n : nat) (w : World) : Prop :=
  match focusedIndex (hooks w) with
  | Some i => 0 <= i < Z.of_nat n
  | None => True
  end.

Definition isOpenCloseCall (c : Call) : bool :=
  match c with
  | CallOnOpen | CallOnClose => true
  | _ => false
  end.

(** The owner passes the second option's own value. *)
Definition bananaChosen : Props :=
  plainProps [textOption "apple"; textOption "banana"; textOption "cherry"]
             (Js.Str "banana").

(** A widget without options. *)
Definition noOptions : Props := plainProps [] Js.Undefined.

(** The buffer is empty and no timer is pending, or the buffer holds
    text and the one pending timer is the one the ref points to. *)
Definition bufferInv (w : World) : Prop :=
  match timers w with
  | [] => search (hooks w) = ""
  | [t] => search (hooks w) <> "" /\ searchClearTimeout w = Some (timerId t)
  | _ :: _ :: _ => False
  end.

(** The text a sequence of typed keys spells. *)
Definition typedText (keys : list string) : string :=
  fold_right String.append "" keys.

(* ================================================================== *)
(** ** Vocabulary of the clear-timer statement *)
(* ================================================================== *)

(** The events that append to the search buffer: a typed character on
    the menu of a searchable widget. *)
Definition appendsToBuffer (p : Props) (ev : Event) : bool :=
  match ev with
  | MenuKeydown key => isTypedChar key && isSearchable p
  | _ => false
  end.

(** Any other event, with the props of its render. *)
Definition quiet (pe : Props * Event) : Prop :=
  appendsToBuffer (fst pe) (snd pe) = false.

(** The time that goes by during a history, in ms. *)
Fixpoint elapsed (q : list (Props * Event)) : Z :=
  match q with
  | [] => 0
  | (_, Elapse ms) :: q' => Z.max 0 ms + elapsed q'
  | _ :: q' => elapsed q'
  end.

(** Whether some event of the history lets time go by (a turn of the
    event loop in which due timers run). *)
Definition timePasses (q : list (Props * Event)) : bool :=
  existsb (fun pe => match snd pe with Elapse _ => true | _ => false end) q.

(** Whether a timer with [d] ms left to run becomes due during the
    history: some stretch of time in it reaches the timer's due time. *)
Fixpoint runsOut (d : Z) (q : list (Props * Event)) : bool :=
  match q with
  | [] => false
  | (_, Elapse ms) :: q' => (d <=? Z.max 0 ms) || runsOut (d - Z.max 0 ms) q'
  | _ :: q' => runsOut d q'
  end.

(** Every pending timer carries a handle the window has handed out. *)
Definition timersKnown (w : World) : Prop :=
  forall t, In t (timers w) -> timerId t < nextTimerId w.

(** Things that happen after "ba" was typed: 200 ms go by, the cursor is
    moved, the menu is closed and opened again, 299 more ms go by. *)
Definition busyPause : list (Props * Event) :=
  [(fruits, Elapse 200); (fruits, MenuKeydown "ArrowDown");
   (fruits, MenuKeydown "Escape"); (fruits, AnchorClick); (fruits, Elapse 299)].

(* ================================================================== *)
(** ** Basic facts about the JavaScript helpers *)
(* ================================================================== *)

Lemma findIndexFrom_none {A : Type} (f : A -> bool) (l : list A) (i : Z) :
  (forall x, In x l -> f x = false) -> Js.findIndexFrom f l i = -1.
Proof.
  revert i. induction l as [|x l IH]; intros i H; simpl.
  - reflexivity.
  - rewrite (H x (or_introl eq_refl)). apply IH. intros y Hy. apply H. now right.
Qed.

Lemma findIndexFrom_first {A : Type} (f : A -> bool) (l : list A) (i : Z)
      (n : nat) (x : A) :
  nth_error l n = Some x -> f x = true ->
  (forall m y, (m < n)%nat -> nth_error l m = Some y -> f y = false) ->
  Js.findIndexFrom f l i = i + Z.of_nat n.
Proof.
  revert i n. induction l as [|a l IH]; intros i n Hn Hx Hbefore.
  - destruct n; discriminate.
  - destruct n as [|n]; simpl in *.
    + injection Hn as ->. rewrite Hx. lia.
    + rewrite (Hbefore 0%nat a); [|lia|reflexivity].
      rewrite (IH (i + 1) n Hn Hx); [lia|].
      intros m y Hm Hy. apply (Hbefore (S m) y); [lia|exact Hy].
Qed.

Lemma single_char_is_no_key_name (key : string) :
  String.length key = 1%nat ->
  String.eqb key "ArrowUp" = false
  /\ String.eqb key "ArrowDown" = false
  /\ String.eqb key "Escape" = false.
Proof.
  destruct key as [|c [|c' k]]; simpl; try discriminate.
  intros _. repeat split.
  - destruct (Ascii.eqb c "A"); reflexivity.
  - destruct (Ascii.eqb c "A"); reflexivity.
  - destruct (Ascii.eqb c "E"); reflexivity.
Qed.

(* ================================================================== *)
(** ** The arrow keys *)
(* ================================================================== *)

Lemma arrowDown_step (p : Props) (w : World) :
  step p (MenuKeydown "ArrowDown") w
  = exec (call PreventDefault ;; goToNextItem p (hooks w)) w.
Proof.
  unfold step, dispatch, handle, handleMenuKeydown, exec, bind, getState.
  simpl String.eqb. simpl Js.testAlphanumeric. simpl Nat.eqb.
  rewrite andb_false_r. unfold goToNextItem, call, skip, ret, setFocusedIndex, modifyState.
  destruct (focusedIndex (hooks w)) as [i|]; simpl.
  - destruct (negb (i =? Z.of_nat (List.length (children p)) - 1)); simpl;
      now rewrite String.eqb_refl.
  - now rewrite String.eqb_refl.
Qed.

Lemma arrowUp_step (p : Props) (w : World) :
  step p (MenuKeydown "ArrowUp") w
  = exec (call PreventDefault ;; goToPreviousItem (hooks w)) w.
Proof.
  unfold step, dispatch, handle, handleMenuKeydown, exec, bind, getState.
  simpl String.eqb. simpl Js.testAlphanumeric. simpl Nat.eqb.
  rewrite andb_false_r. unfold goToPreviousItem, call, skip, ret, setFocusedIndex, modifyState.
  destruct (focusedIndex (hooks w)) as [i|]; simpl.
  - destruct (negb (i =? 0)); simpl; now rewrite String.eqb_refl.
  - now rewrite String.eqb_refl.
Qed.

Lemma arrowDown_focus (p : Props) (w : World) (i : Z) :
  focusedIndex (hooks w) = Some i -> 0 <= i <= lastIndex p ->
  focusedIndex (hooks (step p (MenuKeydown "ArrowDown") w))
  = Some (Z.min (i + 1) (lastIndex p)).
Proof.
  intros Hf Hi. rewrite arrowDown_step.
  unfold exec, bind, call, goToNextItem, lastIndex in *. simpl. rewrite Hf.
  destruct (Z.eqb_spec i (Z.of_nat (List.length (children p)) - 1)) as [E|E]; simpl.
  - rewrite Hf. f_equal. lia.
  - f_equal. lia.
Qed.

Lemma arrowUp_focus (p : Props) (w : World) (i : Z) :
  focusedIndex (hooks w) = Some i -> 0 <= i <= lastIndex p ->
  focusedIndex (hooks (step p (MenuKeydown "ArrowUp") w))
  = Some (Z.max (i - 1) 0).
Proof.
  intros Hf Hi. rewrite arrowUp_step.
  unfold exec, bind, call, goToPreviousItem in *. simpl. rewrite Hf.
  destruct (Z.eqb_spec i 0) as [E|E]; simpl.
  - rewrite Hf. f_equal. lia.
  - f_equal. lia.
Qed.

Lemma arrows_stay_in_bounds (p : Props) (keys : list string) :
  Forall isArrowKey keys ->
  forall w, inBounds p w -> inBounds p (runKeys p keys w).
Proof.
  induction 1 as [|key keys Hk _ IH]; intros w Hw.
  - exact Hw.
  - unfold runKeys in *. simpl. apply IH.
    destruct Hw as (i & Hf & Hi). unfold lastIndex in Hi.
    destruct Hk as [-> | ->].
    + exists (Z.max (i - 1) 0). split; [now apply arrowUp_focus|unfold lastIndex; lia].
    + exists (Z.min (i + 1) (lastIndex p)).
      split; [now apply arrowDown_focus|unfold lastIndex; lia].
Qed.

Example fruits_ba :
  focusedIndex (hooks (runKeys fruits ["b"; "a"] (worldOf (openedAt (Some 0) ""))))
  = Some 1.
Proof. reflexivity. Qed.

(** C3.  For an option list of length n and a focus cursor inside
    [0, n-1], ArrowDown moves the cursor one step down and stops at the
    last index, ArrowUp moves it one step up and stops at 0, without
    wrapping around; hence no sequence of ArrowDown and ArrowUp presses
    takes the cursor out of [0, n-1]. *)
Theorem C3_arrow_keys_clamp (p : Props) (w : World) (i : Z) :
  focusedIndex (hooks w) = Some i ->
  0 <= i <= lastIndex p ->
  focusedIndex (hooks (step p (MenuKeydown "ArrowDown") w))
    = Some (Z.min (i + 1) (lastIndex p))
  /\ focusedIndex (hooks (step p (MenuKeydown "ArrowUp") w))
    = Some (Z.max (i - 1) 0)
  /\ forall keys, Forall isArrowKey keys -> inBounds p (runKeys p keys w).
Proof.
  intros Hf Hi. split; [|split].
  - now apply arrowDown_focus.
  - now apply arrowUp_focus.
  - intros keys Hkeys. apply arrows_stay_in_bounds; [exact Hkeys|].
    exists i. now split.
Qed.

Lemma C3_arrow_keys_clamp_witness :
  focusedIndex (hooks (step fruits (MenuKeydown "ArrowDown")
                            (worldOf (openedAt (Some 2) ""))))
    = Some (Z.min (2 + 1) (lastIndex fruits))
  /\ focusedIndex (hooks (step fruits (MenuKeydown "ArrowUp")
                               (worldOf (openedAt (Some 2) ""))))
    = Some (Z.max (2 - 1) 0)
  /\ forall keys, Forall isArrowKey keys ->
                  inBounds fruits (runKeys fruits keys (worldOf (openedAt (Some 2) ""))).
Proof.
  apply (C3_arrow_keys_clamp fruits (worldOf (openedAt (Some 2) "")) 2).
  - reflexivity.
  - unfold lastIndex. simpl. lia.
Defined.

(* ================================================================== *)
(** ** Arrow keys before the cursor is set *)
(* ================================================================== *)

Lemma arrow_without_focus (p : Props) (w : World) (key : string) :
  isArrowKey key -> focusedIndex (hooks w) = None ->
  hooks (step p (MenuKeydown key) w) = hooks w.
Proof.
  intros [-> | ->] Hf.
  - rewrite arrowUp_step. unfold exec, bind, call, goToPreviousItem. simpl.
    now rewrite Hf.
  - rewrite arrowDown_step. unfold exec, bind, call, goToNextItem. simpl.
    now rewrite Hf.
Qed.

Lemma arrows_without_focus (p : Props) (keys : list string) :
  Forall isArrowKey keys ->
  forall w, focusedIndex (hooks w) = None -> hooks (runKeys p keys w) = hooks w.
Proof.
  induction 1 as [|key keys Hk _ IH]; intros w Hf.
  - reflexivity.
  - unfold runKeys in *. simpl.
    pose proof (arrow_without_focus p w key Hk Hf) as Hstep.
    rewrite IH; [exact Hstep|]. now rewrite Hstep.
Qed.

(** C10.  While the focus cursor is null, the ArrowUp and ArrowDown
    handlers are no-ops: [goToPreviousItem] and [goToNextItem] return
    without touching anything, the key events leave the whole hook state
    as it was, and the cursor is still null after any number of them. *)
Theorem C10_arrows_without_focus_do_nothing (p : Props) (w : World) :
  focusedIndex (hooks w) = None ->
  exec (goToPreviousItem (hooks w)) w = w
  /\ exec (goToNextItem p (hooks w)) w = w
  /\ hooks (step p (MenuKeydown "ArrowUp") w) = hooks w
  /\ hooks (step p (MenuKeydown "ArrowDown") w) = hooks w
  /\ forall keys, Forall isArrowKey keys ->
       hooks (runKeys p keys w) = hooks w
       /\ focusedIndex (hooks (runKeys p keys w)) = None.
Proof.
  intros Hf. repeat split.
  - unfold goToPreviousItem. now rewrite Hf.
  - unfold goToNextItem. now rewrite Hf.
  - apply arrow_without_focus; [now left|exact Hf].
  - apply arrow_without_focus; [now right|exact Hf].
  - now apply arrows_without_focus.
  - rewrite arrows_without_focus; assumption.
Qed.

Lemma C10_arrows_without_focus_do_nothing_witness :
  hooks (step fruits (MenuKeydown "ArrowUp") initialWorld) = hooks initialWorld
  /\ hooks (step fruits (MenuKeydown "ArrowDown") initialWorld) = hooks initialWorld.
Proof.
  destruct (C10_arrows_without_focus_do_nothing fruits initialWorld eq_refl)
    as (_ & _ & Hup & Hdown & _).
  split; assumption.
Defined.

(* ================================================================== *)
(** ** Widgets that cannot be searched *)
(* ================================================================== *)

Lemma unsearchable_keydown_keeps_buffer (p : Props) (w : World) (key : string) :
  isSearchable p = false ->
  search (hooks (step p (MenuKeydown key) w)) = search (hooks w)
  /\ timers (step p (MenuKeydown key) w) = timers w
  /\ searchClearTimeout (step p (MenuKeydown key) w) = searchClearTimeout w.
Proof.
  intros Hs.
  unfold step, dispatch, handle, handleMenuKeydown, exec, bind, getState.
  rewrite Hs, andb_false_r. simpl andb. cbv iota.
  unfold goToPreviousItem, goToNextItem, close, callIfSupplied, call, skip, ret,
    setFocusedIndex, setUncontrolledOpen, modifyState.
  destruct (String.eqb key "ArrowUp"); [|destruct (String.eqb key "ArrowDown");
    [|destruct (String.eqb key "Escape")]]; simpl.
  - destruct (focusedIndex (hooks w)) as [i|]; simpl;
      [destruct (negb (i =? 0)); simpl|]; rewrite String.eqb_refl; now simpl.
  - destruct (focusedIndex (hooks w)) as [i|]; simpl;
      [destruct (negb (i =? Z.of_nat (List.length (children p)) - 1)); simpl|];
      rewrite String.eqb_refl; now simpl.
  - destruct (isControlled p); [destruct (onClose p)|]; simpl;
      rewrite String.eqb_refl; now simpl.
  - rewrite String.eqb_refl; now simpl.
Qed.

Lemma unsearchable_character_ignored (p : Props) (w : World) (key : string) :
  isSearchable p = false -> String.length key = 1%nat ->
  step p (MenuKeydown key) w = w.
Proof.
  intros Hs Hlen.
  destruct (single_char_is_no_key_name key Hlen) as (Hu & Hd & He).
  unfold step, dispatch, handle, handleMenuKeydown, exec, bind, getState.
  rewrite Hs, Hu, Hd, He, andb_false_r. simpl.
  now rewrite String.eqb_refl.
Qed.

Lemma unsearchable_other_key_keeps_focus (p : Props) (w : World) (key : string) :
  isSearchable p = false -> ~ isArrowKey key ->
  focusedIndex (hooks (step p (MenuKeydown key) w)) = focusedIndex (hooks w).
Proof.
  intros Hs Hk.
  assert (Hu : String.eqb key "ArrowUp" = false)
    by (apply String.eqb_neq; intros ->; apply Hk; now left).
  assert (Hd : String.eqb key "ArrowDown" = false)
    by (apply String.eqb_neq; intros ->; apply Hk; now right).
  unfold step, dispatch, handle, handleMenuKeydown, exec, bind, getState.
  rewrite Hs, Hu, Hd, andb_false_r. simpl andb. cbv iota.
  unfold close, callIfSupplied, call, skip, ret, setUncontrolledOpen, modifyState.
  destruct (String.eqb key "Escape"); simpl.
  - destruct (isControlled p); [destruct (onClose p)|]; simpl;
      rewrite String.eqb_refl; now simpl.
  - rewrite String.eqb_refl; now simpl.
Qed.

(** C4.  When the option values are not all strings and no projection
    function is supplied, the widget is not searchable, and character
    input on the open menu is ignored: no key press changes the search
    buffer or the clear timer, no key other than the two arrows moves
    the focus cursor, and a character key (a key of length 1) changes
    nothing at all, however many characters are typed. *)
Theorem C4_unsearchable_ignores_typing (p : Props) :
  isNaturallySearchable p = false ->
  getSearchableValue p = None ->
  isSearchable p = false
  /\ (forall w key,
        search (hooks (step p (MenuKeydown key) w)) = search (hooks w)
        /\ timers (step p (MenuKeydown key) w) = timers w)
  /\ (forall w key, ~ isArrowKey key ->
        focusedIndex (hooks (step p (MenuKeydown key) w)) = focusedIndex (hooks w))
  /\ (forall w key, String.length key = 1%nat ->
        step p (MenuKeydown key) w = w)
  /\ (forall w keys, Forall (fun key => String.length key = 1%nat) keys ->
        runKeys p keys w = w).
Proof.
  intros Hn Hg.
  assert (Hs : isSearchable p = false)
    by (unfold isSearchable; now rewrite Hn, Hg).
  split; [exact Hs|]. split; [|split; [|split]].
  - intros w key.
    destruct (unsearchable_keydown_keeps_buffer p w key Hs) as (H1 & H2 & _).
    now split.
  - intros w key. now apply unsearchable_other_key_keeps_focus.
  - intros w key. now apply unsearchable_character_ignored.
  - intros w keys Hkeys. revert w.
    induction Hkeys as [|key keys Hk _ IH]; intros w.
    + reflexivity.
    + unfold runKeys in *. simpl.
      rewrite (unsearchable_character_ignored p w key Hs Hk). apply IH.
Qed.

Lemma C4_unsearchable_ignores_typing_witness :
  isSearchable records = false
  /\ step records (MenuKeydown "o") (worldOf (openedAt (Some 1) ""))
     = worldOf (openedAt (Some 1) "").
Proof.
  destruct (C4_unsearchable_ignores_typing records eq_refl eq_refl)
    as (Hs & _ & _ & Hchar & _).
  split; [exact Hs|]. apply Hchar. reflexivity.
Defined.

(* ================================================================== *)
(** ** The shape of one turn of the event loop *)
(* ================================================================== *)

Lemma step_unfold (p : Props) (ev : Event) (w : World) :
  step p ev w
  = let w1 := exec (handle p (hooks w) ev) w in
    if String.eqb (search (hooks w1)) (search (hooks w)) then w1
    else exec (searchEffect p (hooks w1)) w1.
Proof.
  unfold step, dispatch, exec, bind, getState.
  destruct (handle p (hooks w) ev w) as [u w1]. simpl.
  destruct (String.eqb (search (hooks w1)) (search (hooks w))); reflexivity.
Qed.

Lemma fire_once (due : list Timer) (w : World) :
  exec (fire due) w
  = match due with
    | [] => w
    | _ :: _ => exec (setSearch (fun _ => "")) w
    end.
Proof.
  revert w. induction due as [|t due IH]; intros w.
  - reflexivity.
  - change (exec (fire (t :: due)) w)
      with (exec (fire due) (exec (setSearch (fun _ => "")) w)).
    rewrite IH. destruct due; reflexivity.
Qed.

Lemma searchEffect_keeps_open_flag (p : Props) (r : State) (w : World) :
  uncontrolledOpen (hooks (exec (searchEffect p r) w)) = uncontrolledOpen (hooks w)
  /\ calls (exec (searchEffect p r) w) = calls w.
Proof.
  unfold searchEffect.
  destruct (search r); [now split|].
  destruct (negb (isSearchable p)); [now split|].
  unfold exec, bind, readSearchClearTimeout, clearTimeout, setTimeout,
    writeSearchClearTimeout, setFocusedIndex, modifyState, skip, ret. simpl.
  match goal with |- context [if ?b then _ else _] => destruct b end; now split.
Qed.

(* ================================================================== *)
(** ** Controlled open state *)
(* ================================================================== *)

Lemma controlled_handle_keeps_open_flag (p : Props) (ev : Event) (w : World) :
  isControlled p = true ->
  uncontrolledOpen (hooks (exec (handle p (hooks w) ev) w))
  = uncontrolledOpen (hooks w).
Proof.
  intros Hc.
  destruct ev as [|key|key| |index v|i|ms]; simpl handle.
  - unfold handleAnchorClick, open, close. rewrite Hc.
    destruct (isOpen p (hooks w)); destruct (onClose p), (onOpen p); reflexivity.
  - unfold handleAnchorKeydown, open. rewrite Hc.
    destruct (String.eqb key " "); [destruct (onOpen p)|]; reflexivity.
  - unfold handleMenuKeydown, close, goToPreviousItem, goToNextItem. rewrite Hc.
    destruct (String.eqb key "ArrowUp");
      [|destruct (String.eqb key "ArrowDown"); [|destruct (String.eqb key "Escape")]];
      destruct (Js.testAlphanumeric key && isSearchable p
                && (String.length key =? 1)%nat);
      try (destruct (focusedIndex (hooks w)) as [j|]);
      try (destruct (negb (j =? 0)));
      try (destruct (negb (j =? Z.of_nat (List.length (children p)) - 1)));
      try (destruct (onClose p)); reflexivity.
  - unfold close. rewrite Hc. destruct (onClose p); reflexivity.
  - unfold handleChildChange, handleChange. destruct (onChangeProp p); reflexivity.
  - unfold activateOption, handleChildChange, handleChange.
    destruct (nth_error (items p (hooks w)) i); [destruct (onChangeProp p)|];
      reflexivity.
  - change (exec (due <- advanceClock ms ;; fire due) w)
      with (exec (fire (fst (advanceClock ms w))) (snd (advanceClock ms w))).
    rewrite fire_once. destruct (fst (advanceClock ms w)); reflexivity.
Qed.

(** C8.  When the [isOpen] prop is supplied, [open] and [close] call
    [onOpen] and [onClose] (when the owner supplied them) and do not
    write the internal open flag; no event at all changes the internal
    flag of a controlled widget. *)
Theorem C8_controlled_open_is_delegated (p : Props) (w : World) :
  isControlled p = true ->
  uncontrolledOpen (hooks (exec (open p) w)) = uncontrolledOpen (hooks w)
  /\ calls (exec (open p) w) = calls w ++ requested (onOpen p) CallOnOpen
  /\ hooks (exec (close p) w) = hooks w
  /\ calls (exec (close p) w) = calls w ++ requested (onClose p) CallOnClose
  /\ forall ev,
       uncontrolledOpen (hooks (step p ev w)) = uncontrolledOpen (hooks w).
Proof.
  intros Hc. unfold open, close. rewrite Hc. repeat split.
  - destruct (onOpen p); reflexivity.
  - destruct (onOpen p); simpl; [reflexivity|now rewrite app_nil_r].
  - destruct (onClose p); reflexivity.
  - destruct (onClose p); simpl; [reflexivity|now rewrite app_nil_r].
  - intros ev. rewrite step_unfold. cbv zeta.
    destruct (String.eqb _ _).
    + now apply controlled_handle_keeps_open_flag.
    + destruct (searchEffect_keeps_open_flag p
                  (hooks (exec (handle p (hooks w) ev) w))
                  (exec (handle p (hooks w) ev) w)) as [-> _].
      now apply controlled_handle_keeps_open_flag.
Qed.

Lemma C8_controlled_open_is_delegated_witness :
  uncontrolledOpen (hooks (exec (open (controlled false fruits)) initialWorld))
    = false
  /\ calls (exec (open (controlled false fruits)) initialWorld) = [CallOnOpen].
Proof.
  destruct (C8_controlled_open_is_delegated (controlled false fruits)
              initialWorld eq_refl) as (Hflag & Hcalls & _).
  split; [exact Hflag|exact Hcalls].
Defined.

(* ================================================================== *)
(** ** Activating the anchor *)
(* ================================================================== *)

Lemma anchorClick_step (p : Props) (w : World) :
  step p AnchorClick w = exec (handleAnchorClick p (hooks w)) w.
Proof.
  rewrite step_unfold. cbv zeta. simpl handle.
  unfold handleAnchorClick, open, close.
  destruct (isOpen p (hooks w)), (isControlled p), (onClose p), (onOpen p);
    simpl; now rewrite String.eqb_refl.
Qed.

Lemma anchorSpace_step (p : Props) (w : World) :
  step p (AnchorKeydown " ") w = exec (open p) w.
Proof.
  rewrite step_unfold. cbv zeta. simpl handle.
  unfold handleAnchorKeydown, open. simpl String.eqb. cbv iota.
  destruct (isControlled p), (onOpen p); simpl; now rewrite String.eqb_refl.
Qed.

(** Whatever happened before, [open] leaves the cursor on the index that
    [selectedIndex] computed, or on 0 when it computed null. *)
Lemma open_sets_focus (p : Props) (w : World) :
  focusedIndex (hooks (exec (open p) w)) = Some (Js.orZero (selectedIndex p)).
Proof.
  unfold open. destruct (isControlled p); [destruct (onOpen p)|]; reflexivity.
Qed.

(** C5 (amended).  A click on the anchor toggles the menu: on an
    uncontrolled widget the open state is negated, on a controlled one
    the owner is asked to close an open menu and to open a closed one.
    The Space key on the anchor always opens: an uncontrolled menu is
    open afterwards whether or not it was open before, and a controlled
    widget asks its owner to open. *)
Theorem C5_click_toggles_space_opens (p : Props) (w : World) :
  match controlledOpen p with
  | None =>
      isOpen p (hooks (step p AnchorClick w)) = negb (isOpen p (hooks w))
      /\ isOpen p (hooks (step p (AnchorKeydown " ") w)) = true
  | Some b =>
      calls (step p AnchorClick w)
        = calls w ++ (if b then requested (onClose p) CallOnClose
                      else requested (onOpen p) CallOnOpen)
      /\ calls (step p (AnchorKeydown " ") w)
        = calls w ++ requested (onOpen p) CallOnOpen
  end.
Proof.
  rewrite anchorClick_step, anchorSpace_step.
  unfold handleAnchorClick, open, close, isOpen, isControlled.
  destruct (controlledOpen p) as [b|].
  - destruct b, (onClose p), (onOpen p); simpl;
      rewrite ?app_nil_r; split; reflexivity.
  - destruct (uncontrolledOpen (hooks w)); split; reflexivity.
Qed.

(** C5, as stated, fails: on an open, uncontrolled menu the Space key
    does not close it. *)
Lemma C5_space_on_open_menu_keeps_it_open :
  isOpen fruits (hooks (worldOf (openedAt (Some 0) ""))) = true
  /\ isOpen fruits
       (hooks (step fruits (AnchorKeydown " ") (worldOf (openedAt (Some 0) ""))))
     <> negb (isOpen fruits (hooks (worldOf (openedAt (Some 0) "")))).
Proof. split; [reflexivity|discriminate]. Qed.

(* ================================================================== *)
(** ** The selected option: by identity for the index, by structure for
       the marker *)
(* ================================================================== *)

Lemma nth_error_mapFrom {A B : Type} (f : A -> Z -> B) (l : list A) (k : Z) (i : nat) :
  nth_error (Js.mapFrom f l k) i
  = option_map (fun x => f x (k + Z.of_nat i)) (nth_error l i).
Proof.
  revert k i. induction l as [|a l IH]; intros k i.
  - destruct i; reflexivity.
  - destruct i as [|i]; simpl.
    + now rewrite Z.add_0_r.
    + rewrite IH. destruct (nth_error l i); simpl; [|reflexivity].
      do 2 f_equal. lia.
Qed.

Lemma item_at (p : Props) (r : State) (i : nat) (c : OptionProps.t) :
  nth_error (children p) i = Some c ->
  nth_error (items p r) i
  = Some {| itemProps := c;
            selected := Js.isDeepEqual (OptionProps.value c) (value p);
            active := match focusedIndex r with
                      | Some j => j =? Z.of_nat i
                      | None => false
                      end;
            onChangeIndex := Z.of_nat i |}.
Proof.
  intros Hc. unfold items, Js.mapIndexed. rewrite nth_error_mapFrom, Hc. reflexivity.
Qed.

Lemma selectedIndex_none (p : Props) :
  (forall c, In c (children p) ->
             Js.strictEq (OptionProps.value c) (value p) = false) ->
  selectedIndex p = None.
Proof.
  intros H. unfold selectedIndex, Js.findIndex.
  now rewrite findIndexFrom_none.
Qed.

Lemma selectedIndex_first (p : Props) (n : nat) (c : OptionProps.t) :
  nth_error (children p) n = Some c ->
  Js.strictEq (OptionProps.value c) (value p) = true ->
  (forall m c', (m < n)%nat -> nth_error (children p) m = Some c' ->
                Js.strictEq (OptionProps.value c') (value p) = false) ->
  selectedIndex p = Some (Z.of_nat n).
Proof.
  intros Hn Hc Hb. unfold selectedIndex, Js.findIndex.
  rewrite (findIndexFrom_first _ _ 0 n c Hn Hc Hb). simpl.
  destruct (Z.eqb_spec (Z.of_nat n) (-1)); [lia|reflexivity].
Qed.

(** Opening focuses the first option that is identical ([===]) to the
    [value] prop, and option 0 when there is none. *)
Lemma open_focuses_identical_option (p : Props) (w : World) :
  (forall n c,
      nth_error (children p) n = Some c ->
      Js.strictEq (OptionProps.value c) (value p) = true ->
      (forall m c', (m < n)%nat -> nth_error (children p) m = Some c' ->
                    Js.strictEq (OptionProps.value c') (value p) = false) ->
      focusedIndex (hooks (exec (open p) w)) = Some (Z.of_nat n))
  /\ ((forall c, In c (children p) ->
                 Js.strictEq (OptionProps.value c) (value p) = false) ->
      focusedIndex (hooks (exec (open p) w)) = Some 0).
Proof.
  split.
  - intros n c Hn Hc Hb. rewrite open_sets_focus.
    now rewrite (selectedIndex_first p n c Hn Hc Hb).
  - intros H. rewrite open_sets_focus. now rewrite selectedIndex_none.
Qed.

(** C2, evaluated where it fails.  The owner's [value] is a copy
    [{id: 2}] of the second option's value.  The second item is rendered
    as the selected one (deep equality), yet [selectedIndex] is null
    (identity) and opening the closed widget puts the cursor on index 0,
    not on index 1. *)
Theorem C2_open_ignores_deep_equal_selection :
  map selected (items copyOfTwo initialState) = [false; true]
  /\ selectedIndex copyOfTwo = None
  /\ isOpen copyOfTwo (hooks initialWorld) = false
  /\ isOpen copyOfTwo (hooks (step copyOfTwo AnchorClick initialWorld)) = true
  /\ focusedIndex (hooks (step copyOfTwo AnchorClick initialWorld)) = Some 0.
Proof. repeat split. Qed.

(** C9 (amended).  When the [value] prop is deep-equal to the value of
    option [i] and identical ([===]) to the value of no option, item [i]
    is rendered as selected, while [selectedIndex] is null, the anchor
    shows the placeholder, and opening puts the cursor on index 0. *)
Theorem C9_deep_equal_copy_selected_without_index
        (p : Props) (w : World) (i : nat) (c : OptionProps.t) :
  nth_error (children p) i = Some c ->
  Js.isDeepEqual (OptionProps.value c) (value p) = true ->
  (forall c', In c' (children p) ->
              Js.strictEq (OptionProps.value c') (value p) = false) ->
  (forall r, exists it,
        nth_error (items p r) i = Some it
        /\ itemProps it = c /\ selected it = true)
  /\ selectedIndex p = None
  /\ displayedValue p = placeholder p
  /\ focusedIndex (hooks (exec (open p) w)) = Some 0.
Proof.
  intros Hc Hdeep Hstrict.
  pose proof (selectedIndex_none p Hstrict) as Hnone.
  split; [|split; [|split]].
  - intros r. eexists. split; [apply item_at; exact Hc|]. simpl. now split.
  - exact Hnone.
  - unfold displayedValue, selectedChild. rewrite Hnone. reflexivity.
  - rewrite open_sets_focus, Hnone. reflexivity.
Qed.

Lemma C9_deep_equal_copy_selected_without_index_witness :
  (forall r, exists it,
        nth_error (items copyOfTwo r) 1 = Some it
        /\ itemProps it = valueOption (idObject 2 2) "Two" /\ selected it = true)
  /\ selectedIndex copyOfTwo = None
  /\ displayedValue copyOfTwo = placeholder copyOfTwo
  /\ focusedIndex (hooks (exec (open copyOfTwo) initialWorld)) = Some 0.
Proof.
  apply (C9_deep_equal_copy_selected_without_index copyOfTwo initialWorld 1
           (valueOption (idObject 2 2) "Two")).
  - reflexivity.
  - reflexivity.
  - intros c' [<- | [<- | []]]; reflexivity.
Defined.

(** C9, as stated, fails when another option is identical to the value:
    option 0 of [twins] is deep-equal but not identical to the [value]
    prop and is rendered as selected, yet [selectedIndex] is 1, the
    anchor shows the second option's label and opening focuses index 1. *)
Lemma C9_twin_options_have_an_index :
  (exists it, nth_error (items twins initialState) 0 = Some it
              /\ Js.isDeepEqual (OptionProps.value (itemProps it)) (value twins) = true
              /\ Js.strictEq (OptionProps.value (itemProps it)) (value twins) = false
              /\ selected it = true)
  /\ selectedIndex twins = Some 1
  /\ displayedValue twins = Some "Second"
  /\ placeholder twins = Some "Choose"
  /\ focusedIndex (hooks (exec (open twins) initialWorld)) = Some 1.
Proof.
  split; [eexists; split; [reflexivity|repeat split]|repeat split].
Qed.

(* ================================================================== *)
(** ** Committing an option *)
(* ================================================================== *)







(* ================================================================== *)
(** ** The search matcher *)
(* ================================================================== *)

Lemma findIndexFrom_map {A B : Type} (g : A -> B) (f : B -> bool) (l : list A) (i : Z) :
  Js.findIndexFrom f (map g l) i = Js.findIndexFrom (fun x => f (g x)) l i.
Proof.
  revert i. induction l as [|a l IH]; intros i; simpl; [reflexivity|].
  now rewrite IH.
Qed.

Lemma searchEffect_focus (p : Props) (r : State) (w : World) :
  search r <> "" -> isSearchable p = true ->
  focusedIndex (hooks (exec (searchEffect p r) w))
  = let k := Js.findIndex
               (fun c => Js.startsWith (searchableString p (OptionProps.value c))
                                       (search r))
               (children p) in
    if negb (k =? -1) then Some k else focusedIndex (hooks w).
Proof.
  intros Hne Hs. unfold searchEffect. rewrite Hs. simpl negb. cbv iota.
  destruct (search r) as [|a s] eqn:Hr; [congruence|].
  unfold allOptionValues, Js.findIndex. rewrite findIndexFrom_map. cbv zeta.
  unfold exec, bind, readSearchClearTimeout, clearTimeout, setTimeout,
    writeSearchClearTimeout, setFocusedIndex, modifyState, skip, ret. simpl.
  match goal with |- context [negb ?b] => destruct (negb b) end; reflexivity.
Qed.

Lemma searchableString_agrees (p : Props) (c : OptionProps.t) :
  projectionNeverEmpty p -> In c (children p) ->
  searchableString p (OptionProps.value c)
  = specSearchableString p (OptionProps.value c).
Proof.
  intros Hp Hc. unfold searchableString, specSearchableString.
  destruct (getSearchableValue p) as [f|] eqn:Hg; [|reflexivity].
  specialize (Hp f c Hg Hc). unfold Js.orString.
  destruct (f (OptionProps.value c)); [congruence|reflexivity].
Qed.

(** Whenever no projected string is empty, the matcher does what the
    specification says: the first option, in list order, whose
    searchable string starts with the buffer gets the focus, and the
    focus stays where it is when there is none. *)
Lemma search_matcher_first_prefix_match (p : Props) (r : State) (w : World) :
  search r <> "" -> isSearchable p = true -> projectionNeverEmpty p ->
  (forall n c,
      nth_error (children p) n = Some c ->
      specMatches p (search r) c = true ->
      (forall m c', (m < n)%nat -> nth_error (children p) m = Some c' ->
                    specMatches p (search r) c' = false) ->
      focusedIndex (hooks (exec (searchEffect p r) w)) = Some (Z.of_nat n))
  /\ ((forall c, In c (children p) -> specMatches p (search r) c = false) ->
      focusedIndex (hooks (exec (searchEffect p r) w)) = focusedIndex (hooks w)).
Proof.
  intros Hne Hs Hp. split.
  - intros n c Hn Hc Hb. rewrite (searchEffect_focus p r w Hne Hs). cbv zeta.
    unfold Js.findIndex.
    rewrite (findIndexFrom_first _ _ 0 n c Hn).
    + simpl. destruct (Z.eqb_spec (Z.of_nat n) (-1)); [lia|reflexivity].
    + rewrite searchableString_agrees; [exact Hc|exact Hp|].
      eapply nth_error_In; eassumption.
    + intros m c' Hm Hc'. rewrite searchableString_agrees; [now apply (Hb m)|exact Hp|].
      eapply nth_error_In; eassumption.
  - intros Hnone. rewrite (searchEffect_focus p r w Hne Hs). cbv zeta.
    unfold Js.findIndex. rewrite findIndexFrom_none; [reflexivity|].
    intros c Hc. rewrite searchableString_agrees; [now apply Hnone|exact Hp|exact Hc].
Qed.

Example fruits_buffer_ba :
  focusedIndex (hooks (exec (searchEffect fruits (openedAt None "ba"))
                            (worldOf (openedAt None "ba")))) = Some 1.
Proof. reflexivity. Qed.

(** C1, evaluated where it fails.  The projection maps the first
    contact to the empty string, so by the specification the searchable
    strings are "" and "kate" and none of them starts with "u"; typing
    "u" must leave the cursor on index 1.  The code falls back to the
    option's own value "u7" and moves the cursor to index 0. *)
Theorem C1_empty_projection_falls_back_to_value :
  isSearchable contacts = true
  /\ map (specSearchableString contacts) (allOptionValues contacts) = [""; "kate"]
  /\ map (specMatches contacts "u") (children contacts) = [false; false]
  /\ map (searchableString contacts) (allOptionValues contacts) = ["u7"; "kate"]
  /\ focusedIndex (hooks (worldOf (openedAt (Some 1) ""))) = Some 1
  /\ search (hooks (step contacts (MenuKeydown "u") (worldOf (openedAt (Some 1) ""))))
     = "u"
  /\ focusedIndex
       (hooks (step contacts (MenuKeydown "u") (worldOf (openedAt (Some 1) ""))))
     = Some 0.
Proof. repeat split. Qed.

(* ================================================================== *)
(** ** The search buffer and its clear timer *)
(* ================================================================== *)

Lemma append_changes (s k : string) : k <> "" -> (s ++ k)%string <> s.
Proof.
  intros Hk. induction s as [|a s IH]; simpl.
  - exact Hk.
  - intros H. injection H as H. now apply IH.
Qed.

Lemma append_nonempty (s k : string) : k <> "" -> (s ++ k)%string <> "".
Proof.
  intros Hk. destruct s; simpl; [exact Hk|discriminate].
Qed.

Lemma single_char_nonempty (key : string) : String.length key = 1%nat -> key <> "".
Proof. intros H ->. discriminate. Qed.

Lemma filter_not_due_inv (t : Z) (w : World) :
  timerInv w ->
  filter (fun tm => negb (isDue t tm)) (timers w) = []
  \/ exists tm, filter (fun tm => negb (isDue t tm)) (timers w) = [tm]
                /\ searchClearTimeout w = Some (timerId tm).
Proof.
  intros [H | (tm & H & Href)]; rewrite H; simpl.
  - now left.
  - destruct (negb (isDue t tm)); [right; now exists tm|now left].
Qed.

Lemma handle_keeps_timerInv (p : Props) (ev : Event) (w : World) :
  timerInv w -> timerInv (exec (handle p (hooks w) ev) w).
Proof.
  intros Hinv.
  destruct ev as [|key|key| |index v|i|ms]; simpl handle.
  - unfold handleAnchorClick, open, close.
    destruct (isOpen p (hooks w)), (isControlled p), (onClose p), (onOpen p);
      exact Hinv.
  - unfold handleAnchorKeydown, open.
    destruct (String.eqb key " "); [destruct (isControlled p), (onOpen p)|];
      exact Hinv.
  - unfold handleMenuKeydown, close, goToPreviousItem, goToNextItem.
    destruct (String.eqb key "ArrowUp");
      [|destruct (String.eqb key "ArrowDown"); [|destruct (String.eqb key "Escape")]];
      destruct (Js.testAlphanumeric key && isSearchable p
                && (String.length key =? 1)%nat);
      try (destruct (focusedIndex (hooks w)) as [j|]);
      try (destruct (negb (j =? 0)));
      try (destruct (negb (j =? Z.of_nat (List.length (children p)) - 1)));
      try (destruct (isControlled p)); try (destruct (onClose p)); exact Hinv.
  - unfold close. destruct (isControlled p), (onClose p); exact Hinv.
  - unfold handleChildChange, handleChange. destruct (onChangeProp p); exact Hinv.
  - unfold activateOption, handleChildChange, handleChange.
    destruct (nth_error (items p (hooks w)) i); [destruct (onChangeProp p)|];
      exact Hinv.
  - change (exec (due <- advanceClock ms ;; fire due) w)
      with (exec (fire (fst (advanceClock ms w))) (snd (advanceClock ms w))).
    rewrite fire_once.
    pose proof (filter_not_due_inv (now w + Z.max 0 ms) w Hinv) as Hf.
    destruct (fst (advanceClock ms w)); exact Hf.
Qed.

Lemma searchEffect_timers (p : Props) (r : State) (w : World) :
  search r <> "" -> isSearchable p = true -> timerInv w ->
  timers (exec (searchEffect p r) w)
  = [ {| timerId := nextTimerId w; dueAt := now w + Z.max 0 (clearSearchAfter p) |} ]
  /\ searchClearTimeout (exec (searchEffect p r) w) = Some (nextTimerId w)
  /\ search (hooks (exec (searchEffect p r) w)) = search (hooks w)
  /\ now (exec (searchEffect p r) w) = now w.
Proof.
  intros Hne Hs Hinv. unfold searchEffect. rewrite Hs. simpl negb. cbv iota.
  destruct (search r) as [|a s] eqn:Hr; [congruence|].
  assert (Hcancel :
            match searchClearTimeout w with
            | Some i => filter (fun t => negb (timerId t =? i)) (timers w)
            | None => timers w
            end = []).
  { destruct Hinv as [H | (tm & H & Href)]; rewrite H.
    - now destruct (searchClearTimeout w).
    - rewrite Href. simpl. now rewrite Z.eqb_refl. }
  unfold exec, bind, readSearchClearTimeout, clearTimeout, setTimeout,
    writeSearchClearTimeout, setFocusedIndex, modifyState, skip, ret. simpl.
  match goal with |- context [negb ?b] => destruct (negb b) end; simpl;
    rewrite Hcancel; repeat split.
Qed.

Lemma searchEffect_keeps_timerInv (p : Props) (r : State) (w : World) :
  timerInv w -> timerInv (exec (searchEffect p r) w).
Proof.
  intros Hinv.
  destruct (string_dec (search r) "") as [He|Hne].
  - unfold searchEffect. now rewrite He.
  - destruct (isSearchable p) eqn:Hs.
    + destruct (searchEffect_timers p r w Hne Hs Hinv) as (Ht & Href & _).
      right. eexists. split; [exact Ht|exact Href].
    + unfold searchEffect. rewrite Hs. now destruct (search r).
Qed.

Lemma step_keeps_timerInv (p : Props) (ev : Event) (w : World) :
  timerInv w -> timerInv (step p ev w).
Proof.
  intros Hinv. rewrite step_unfold. cbv zeta.
  pose proof (handle_keeps_timerInv p ev w Hinv) as H1.
  destruct (String.eqb _ _); [exact H1|].
  now apply searchEffect_keeps_timerInv.
Qed.

Lemma run_keeps_timerInv (h : list (Props * Event)) (w : World) :
  timerInv w -> timerInv (run h w).
Proof.
  revert w. induction h as [|[p ev] h IH]; intros w Hinv; simpl.
  - exact Hinv.
  - apply IH. now apply step_keeps_timerInv.
Qed.

Lemma timerInv_at_most_one (w : World) :
  timerInv w -> (List.length (timers w) <= 1)%nat.
Proof.
  intros [H | (tm & H & _)]; rewrite H; simpl; lia.
Qed.

(** A character typed on a searchable widget: the character is appended,
    whatever timer was pending is cancelled, and exactly one new timer is
    pending, due [clearSearchAfter] ms from now. *)
Lemma keystroke_restarts_timer (p : Props) (w : World) (key : string) :
  isSearchable p = true -> Js.testAlphanumeric key = true ->
  String.length key = 1%nat -> timerInv w ->
  search (hooks (step p (MenuKeydown key) w)) = (search (hooks w) ++ key)%string
  /\ timers (step p (MenuKeydown key) w)
     = [ {| timerId := nextTimerId w;
            dueAt := now w + Z.max 0 (clearSearchAfter p) |} ]
  /\ searchClearTimeout (step p (MenuKeydown key) w) = Some (nextTimerId w)
  /\ now (step p (MenuKeydown key) w) = now w.
Proof.
  intros Hs Ha Hlen Hinv.
  destruct (single_char_is_no_key_name key Hlen) as (Hu & Hd & He).
  pose proof (single_char_nonempty key Hlen) as Hk.
  rewrite step_unfold. cbv zeta. simpl handle.
  unfold handleMenuKeydown. rewrite Hu, Hd, He, Hs, Ha, Hlen. simpl andb. cbv iota.
  set (w1 := exec (skip ;; setSearch (fun s => (s ++ key)%string)) w).
  assert (Hw1 : search (hooks w1) = (search (hooks w) ++ key)%string) by reflexivity.
  assert (Hinv1 : timerInv w1) by exact Hinv.
  rewrite Hw1.
  destruct (String.eqb_spec (search (hooks w) ++ key) (search (hooks w))) as [E|_].
  - exfalso. now apply (append_changes (search (hooks w)) key Hk).
  - assert (Hne : search (hooks w1) <> "")
      by (rewrite Hw1; now apply append_nonempty).
    destruct (searchEffect_timers p (hooks w1) w1 Hne Hs Hinv1)
      as (Ht & Href & Hsearch & Hnow).
    rewrite Hsearch, Ht, Href, Hnow. now repeat split.
Qed.

(** Time going by on a world with one pending timer: the buffer is kept
    until the timer is due and emptied when it is. *)
Lemma elapse_fires_when_due (p : Props) (w : World) (tm : Timer) (ms : Z) :
  timers w = [tm] -> 0 <= ms ->
  search (hooks (step p (Elapse ms) w))
    = (if now w + ms <? dueAt tm then search (hooks w) else "")
  /\ timers (step p (Elapse ms) w)
    = (if now w + ms <? dueAt tm then [tm] else []).
Proof.
  intros Ht Hms. rewrite step_unfold. cbv zeta. simpl handle.
  change (exec (due <- advanceClock ms ;; fire due) w)
    with (exec (fire (fst (advanceClock ms w))) (snd (advanceClock ms w))).
  rewrite fire_once. unfold advanceClock. simpl fst. simpl snd. rewrite Ht.
  simpl filter. unfold isDue. rewrite (Z.max_r 0 ms Hms).
  destruct (Z.ltb_spec (now w + ms) (dueAt tm)) as [Hlt|Hge].
  - destruct (Z.leb_spec (dueAt tm) (now w + ms)) as [H|_]; [lia|].
    simpl. now rewrite String.eqb_refl.
  - destruct (Z.leb_spec (dueAt tm) (now w + ms)) as [_|H]; [|lia].
    simpl. destruct (search (hooks w)); now split.
Qed.

Lemma initialWorld_timerInv : timerInv initialWorld.
Proof. now left. Qed.

(** C7, as stated, fails: a successful match does not clear the buffer.
    After the menu is opened and "b" is typed, "banana" is matched and
    focused, and the buffer still holds "b". *)
Lemma C7_match_keeps_the_buffer :
  focusedIndex (hooks (reached typedB)) = Some 1
  /\ search (hooks (reached typedB)) = "b"
  /\ search (hooks (reached typedB)) <> "".
Proof. repeat split. discriminate. Qed.

(* ================================================================== *)
(** ** Further properties: what [findIndex] and [startsWith] give *)
(* ================================================================== *)

Lemma findIndexFrom_bounds {A : Type} (f : A -> bool) (l : list A) (i : Z) :
  Js.findIndexFrom f l i = -1
  \/ i <= Js.findIndexFrom f l i < i + Z.of_nat (List.length l).
Proof.
  revert i. induction l as [|x l IH]; intros i; simpl.
  - now left.
  - destruct (f x).
    + right. lia.
    + destruct (IH (i + 1)) as [H|H]; [now left | right; lia].
Qed.

Lemma findIndexFrom_least {A : Type} (f : A -> bool) (l : list A) (i : Z) :
  Js.findIndexFrom f l i <> -1 ->
  exists n x, Js.findIndexFrom f l i = i + Z.of_nat n
              /\ nth_error l n = Some x /\ f x = true
              /\ forall m y, (m < n)%nat -> nth_error l m = Some y -> f y = false.
Proof.
  revert i. induction l as [|a l IH]; intros i Hne; simpl in *.
  - congruence.
  - destruct (f a) eqn:Ha.
    + exists 0%nat, a. repeat split; [lia|assumption|intros m y Hm; lia].
    + destruct (IH (i + 1) Hne) as (n & x & Hk & Hn & Hx & Hb).
      exists (S n), x. repeat split; [lia|assumption|assumption|].
      intros [|m] y Hm Hy; simpl in Hy.
      * now injection Hy as <-.
      * apply (Hb m y); [lia|exact Hy].
Qed.

Lemma findIndexFrom_hit {A : Type} (f : A -> bool) (l : list A) (i : Z) (x : A) :
  0 <= i -> In x l -> f x = true -> Js.findIndexFrom f l i <> -1.
Proof.
  revert i. induction l as [|a l IH]; intros i Hi Hin Hx; simpl in *.
  - contradiction.
  - destruct (f a) eqn:Ha; [lia|].
    destruct Hin as [-> | Hin]; [congruence|].
    apply IH; [lia|assumption|assumption].
Qed.

Lemma prefix_gives_rest (a s : string) :
  String.prefix a s = true -> exists rest, s = (a ++ rest)%string.
Proof.
  revert s. induction a as [|c a IH]; intros s H.
  - exists s. reflexivity.
  - destruct s as [|c' s]; simpl in H; [discriminate|].
    destruct (ascii_dec c c') as [->|]; [|discriminate].
    destruct (IH s H) as [rest ->]. now exists rest.
Qed.

Lemma prefix_of_longer (a b s : string) :
  String.prefix (a ++ b) s = true -> String.prefix a s = true.
Proof.
  revert s. induction a as [|c a IH]; intros s H.
  - now destruct s.
  - destruct s as [|c' s]; simpl in *; [discriminate|].
    destruct (ascii_dec c c'); [now apply IH|discriminate].
Qed.

Lemma matchIndex_children (p : Props) (buffer : string) :
  matchIndex p buffer = Js.findIndexFrom (matches p buffer) (children p) 0.
Proof.
  unfold matchIndex, allOptionValues, Js.findIndex. now rewrite findIndexFrom_map.
Qed.

Lemma searchEffect_focus_matchIndex (p : Props) (r : State) (w : World) :
  search r <> "" -> isSearchable p = true ->
  focusedIndex (hooks (exec (searchEffect p r) w))
  = if negb (matchIndex p (search r) =? -1) then Some (matchIndex p (search r))
    else focusedIndex (hooks w).
Proof.
  intros Hne Hs. rewrite (searchEffect_focus p r w Hne Hs). cbv zeta.
  rewrite matchIndex_children. reflexivity.
Qed.

(** X1.  The search effect on a searchable widget with a non-empty
    buffer: if some option's string [getSearchableValue?.(v) || String(v)]
    starts with the buffer, the cursor goes to the first such option in
    list order, whose string is the buffer followed by some rest; if none
    does, the cursor is left where it was. *)
Theorem search_effect_focuses_first_match (p : Props) (r : State) (w : World) :
  search r <> "" ->
  isSearchable p = true ->
  ((exists c, In c (children p) /\ matches p (search r) c = true) ->
   exists n c rest,
     nth_error (children p) n = Some c
     /\ searchableString p (OptionProps.value c) = (search r ++ rest)%string
     /\ (forall m c', (m < n)%nat -> nth_error (children p) m = Some c' ->
                      matches p (search r) c' = false)
     /\ focusedIndex (hooks (exec (searchEffect p r) w)) = Some (Z.of_nat n))
  /\ ((forall c, In c (children p) -> matches p (search r) c = false) ->
      focusedIndex (hooks (exec (searchEffect p r) w)) = focusedIndex (hooks w)).
Proof.
  intros Hne Hs. rewrite (searchEffect_focus_matchIndex p r w Hne Hs).
  rewrite matchIndex_children. split.
  - intros (c0 & Hin & Hc0).
    pose proof (findIndexFrom_hit (matches p (search r)) (children p) 0 c0
                  (Z.le_refl 0) Hin Hc0) as Hfound.
    destruct (findIndexFrom_least _ _ 0 Hfound) as (n & c & Hk & Hn & Hc & Hb).
    destruct (prefix_gives_rest _ _ Hc) as [rest Hrest].
    exists n, c, rest. repeat split; try assumption.
    rewrite Hk. simpl. destruct (Z.eqb_spec (Z.of_nat n) (-1)); [lia|reflexivity].
  - intros Hnone. rewrite findIndexFrom_none; [reflexivity|exact Hnone].
Qed.

Lemma search_effect_focuses_first_match_witness :
  exists n c rest,
    nth_error (children fruits) n = Some c
    /\ searchableString fruits (OptionProps.value c) = ("ba" ++ rest)%string
    /\ (forall m c', (m < n)%nat -> nth_error (children fruits) m = Some c' ->
                     matches fruits "ba" c' = false)
    /\ focusedIndex (hooks (exec (searchEffect fruits (openedAt None "ba"))
                                 initialWorld)) = Some (Z.of_nat n).
Proof.
  refine (proj1 (search_effect_focuses_first_match fruits (openedAt None "ba")
                   initialWorld _ eq_refl) _).
  - discriminate.
  - exists (textOption "banana"). split; [right; left; reflexivity|reflexivity].
Defined.

(* ================================================================== *)
(** ** Further properties: what a handler does to the buffer and the timers *)
(* ================================================================== *)

Lemma handle_buffer (p : Props) (ev : Event) (w : World) :
  searchClearTimeout (exec (handle p (hooks w) ev) w) = searchClearTimeout w
  /\ match ev with
     | MenuKeydown key =>
         timers (exec (handle p (hooks w) ev) w) = timers w
         /\ search (hooks (exec (handle p (hooks w) ev) w))
            = (if isTypedChar key && isSearchable p
               then (search (hooks w) ++ key)%string else search (hooks w))
     | Elapse ms =>
         timers (exec (handle p (hooks w) ev) w)
         = filter (fun tm => negb (isDue (now w + Z.max 0 ms) tm)) (timers w)
         /\ search (hooks (exec (handle p (hooks w) ev) w))
            = match filter (isDue (now w + Z.max 0 ms)) (timers w) with
              | [] => search (hooks w)
              | _ :: _ => ""
              end
     | _ =>
         timers (exec (handle p (hooks w) ev) w) = timers w
         /\ search (hooks (exec (handle p (hooks w) ev) w)) = search (hooks w)
     end.
Proof.
  destruct ev as [|key|key| |index v|i|ms]; simpl handle.
  - unfold handleAnchorClick, open, close.
    destruct (isOpen p (hooks w)), (isControlled p), (onClose p), (onOpen p);
      repeat split.
  - unfold handleAnchorKeydown, open.
    destruct (String.eqb key " "); [destruct (isControlled p), (onOpen p)|];
      repeat split.
  - unfold handleMenuKeydown, close, goToPreviousItem, goToNextItem, isTypedChar.
    replace (Js.testAlphanumeric key && (String.length key =? 1)%nat
             && isSearchable p)
      with (Js.testAlphanumeric key && isSearchable p
            && (String.length key =? 1)%nat)
      by (destruct (Js.testAlphanumeric key), (isSearchable p),
            (String.length key =? 1)%nat; reflexivity).
    destruct (String.eqb key "ArrowUp");
      [|destruct (String.eqb key "ArrowDown"); [|destruct (String.eqb key "Escape")]];
      destruct (Js.testAlphanumeric key && isSearchable p
                && (String.length key =? 1)%nat);
      try (destruct (focusedIndex (hooks w)) as [j|]);
      try (destruct (negb (j =? 0)));
      try (destruct (negb (j =? Z.of_nat (List.length (children p)) - 1)));
      try (destruct (isControlled p)); try (destruct (onClose p)); repeat split.
  - unfold close. destruct (isControlled p), (onClose p); repeat split.
  - unfold handleChildChange, handleChange. destruct (onChangeProp p); repeat split.
  - unfold activateOption, handleChildChange, handleChange.
    destruct (nth_error (items p (hooks w)) i); [destruct (onChangeProp p)|];
      repeat split.
  - change (exec (due <- advanceClock ms ;; fire due) w)
      with (exec (fire (fst (advanceClock ms w))) (snd (advanceClock ms w))).
    rewrite fire_once. unfold advanceClock. simpl fst. simpl snd.
    destruct (filter (isDue (now w + Z.max 0 ms)) (timers w)); repeat split.
Qed.

Lemma searchEffect_keeps_buffer (p : Props) (r : State) (w : World) :
  search (hooks (exec (searchEffect p r) w)) = search (hooks w).
Proof.
  unfold searchEffect.
  destruct (search r); [reflexivity|].
  destruct (negb (isSearchable p)); [reflexivity|].
  unfold exec, bind, readSearchClearTimeout, clearTimeout, setTimeout,
    writeSearchClearTimeout, setFocusedIndex, modifyState, skip, ret. simpl.
  match goal with |- context [if ?b then _ else _] => destruct b end; reflexivity.
Qed.

Lemma step_buffer (p : Props) (ev : Event) (w : World) :
  search (hooks (step p ev w)) = search (hooks (exec (handle p (hooks w) ev) w)).
Proof.
  rewrite step_unfold. cbv zeta.
  destruct (String.eqb _ _); [reflexivity|apply searchEffect_keeps_buffer].
Qed.

Lemma allAlnum_append (s k : string) :
  Js.allAlnum (s ++ k) = Js.allAlnum s && Js.allAlnum k.
Proof.
  induction s as [|c s IH]; simpl; [reflexivity|].
  now rewrite IH, andb_assoc.
Qed.

Lemma typedChar_allAlnum (key : string) :
  isTypedChar key = true -> Js.allAlnum key = true.
Proof.
  unfold isTypedChar, Js.testAlphanumeric. intros H.
  apply andb_prop in H as [H _]. now destruct key.
Qed.

Lemma menu_keydown_buffer (p : Props) (w : World) (key : string) :
  search (hooks (step p (MenuKeydown key) w))
  = (if isTypedChar key && isSearchable p
     then (search (hooks w) ++ key)%string
     else search (hooks w)).
Proof.
  rewrite step_buffer.
  destruct (handle_buffer p (MenuKeydown key) w) as (_ & _ & H). exact H.
Qed.

(** X2.  A key press on the menu changes the search buffer exactly when
    the widget is searchable and the key is a single ASCII letter or
    digit, and then by appending the key; every other key (key names such
    as Shift, Enter or ArrowUp, punctuation, the space bar) leaves the
    buffer as it is. *)
Theorem menu_keydown_appends_only_typed_chars (p : Props) (w : World) (key : string) :
  search (hooks (step p (MenuKeydown key) w))
  = (if isTypedChar key && isSearchable p
     then (search (hooks w) ++ key)%string
     else search (hooks w)).
Proof. apply menu_keydown_buffer. Qed.

Lemma step_keeps_alnum (p : Props) (ev : Event) (w : World) :
  Js.allAlnum (search (hooks w)) = true ->
  Js.allAlnum (search (hooks (step p ev w))) = true.
Proof.
  intros Hw. rewrite step_buffer.
  destruct (handle_buffer p ev w) as (_ & H).
  destruct ev as [|key|key| |index v|i|ms]; destruct H as (_ & ->); try exact Hw.
  - destruct (isTypedChar key) eqn:Hk; simpl; [|exact Hw].
    destruct (isSearchable p); [|exact Hw].
    rewrite allAlnum_append, Hw. now apply typedChar_allAlnum.
  - destruct (filter _ _); [exact Hw|reflexivity].
Qed.

(** X3.  Whatever happens to the widget, with whatever props, its search
    buffer only ever holds ASCII letters and digits. *)
Theorem search_buffer_is_alphanumeric (h : list (Props * Event)) :
  Js.allAlnum (search (hooks (reached h))) = true.
Proof.
  unfold reached.
  assert (H : forall w, Js.allAlnum (search (hooks w)) = true ->
                        Js.allAlnum (search (hooks (run h w))) = true).
  { induction h as [|[p ev] h IH]; intros w Hw; simpl; [exact Hw|].
    apply IH. now apply step_keeps_alnum. }
  now apply H.
Qed.

Lemma bufferInv_timerInv (w : World) : bufferInv w -> timerInv w.
Proof.
  unfold bufferInv, timerInv. destruct (timers w) as [|t [|t' l]].
  - now left.
  - intros [_ H]. right. now exists t.
  - contradiction.
Qed.

Lemma bufferInv_same (w w' : World) :
  timers w' = timers w -> search (hooks w') = search (hooks w) ->
  searchClearTimeout w' = searchClearTimeout w ->
  bufferInv w -> bufferInv w'.
Proof. unfold bufferInv. now intros -> -> ->. Qed.

Lemma step_same_buffer (p : Props) (ev : Event) (w : World) :
  search (hooks (exec (handle p (hooks w) ev) w)) = search (hooks w) ->
  step p ev w = exec (handle p (hooks w) ev) w.
Proof.
  intros H. rewrite step_unfold. cbv zeta. now rewrite H, String.eqb_refl.
Qed.

Lemma typedChar_nonempty (key : string) : isTypedChar key = true -> key <> "".
Proof. intros H ->. discriminate. Qed.

Lemma step_keeps_bufferInv (p : Props) (ev : Event) (w : World) :
  bufferInv w -> bufferInv (step p ev w).
Proof.
  intros Hinv.
  destruct (handle_buffer p ev w) as (Href & H).
  assert (Hquiet : timers (exec (handle p (hooks w) ev) w) = timers w
                   /\ search (hooks (exec (handle p (hooks w) ev) w))
                      = search (hooks w) ->
                   bufferInv (step p ev w)).
  { intros [Ht Hs]. rewrite (step_same_buffer p ev w Hs).
    now apply (bufferInv_same w). }
  destruct ev as [|key|key| |index v|i|ms]; try (now apply Hquiet).
  - destruct H as (Ht & Hs).
    destruct (isTypedChar key && isSearchable p) eqn:Hk; [|now apply Hquiet].
    apply andb_prop in Hk as [Hkey Hsearchable].
    pose proof (typedChar_nonempty key Hkey) as Hne.
    rewrite step_unfold. cbv zeta. rewrite Hs.
    destruct (String.eqb_spec (search (hooks w) ++ key) (search (hooks w))) as [E|_].
    + exfalso. now apply (append_changes (search (hooks w)) key Hne).
    + set (w1 := exec (handle p (hooks w) (MenuKeydown key)) w) in *.
      assert (Hinv1 : timerInv w1).
      { apply handle_keeps_timerInv. now apply bufferInv_timerInv. }
      assert (Hne1 : search (hooks w1) <> "")
        by (rewrite Hs; now apply append_nonempty).
      destruct (searchEffect_timers p (hooks w1) w1 Hne1 Hsearchable Hinv1)
        as (Ht' & Href' & Hs' & _).
      unfold bufferInv. rewrite Ht', Hs', Href'. simpl. now split.
  - destruct H as (Ht & Hs). unfold bufferInv in Hinv.
    destruct (timers w) as [|t [|t' l]] eqn:Htw; [| |contradiction].
    + apply Hquiet. now split.
    + simpl filter in Ht, Hs. destruct (isDue (now w + Z.max 0 ms) t) eqn:Hdue;
        simpl negb in Ht; cbv iota in Ht, Hs.
      * destruct Hinv as [Hbuf _].
        rewrite step_unfold. cbv zeta. rewrite Hs.
        destruct (String.eqb_spec "" (search (hooks w))) as [E|_];
          [now rewrite <- E in Hbuf|].
        unfold searchEffect. rewrite Hs.
        change (bufferInv (exec (handle p (hooks w) (Elapse ms)) w)).
        unfold bufferInv. now rewrite Ht, Hs.
      * apply Hquiet. now split.
Qed.

Lemma run_keeps_bufferInv (h : list (Props * Event)) (w : World) :
  bufferInv w -> bufferInv (run h w).
Proof.
  revert w. induction h as [|[p ev] h IH]; intros w Hinv; simpl.
  - exact Hinv.
  - apply IH. now apply step_keeps_bufferInv.
Qed.

(** X4.  In every world the widget can reach, the search buffer is empty
    exactly when no clear timer is pending: text in the buffer always has
    its clear timer running, and a timer never outlives the text it is to
    clear. *)
Theorem buffer_is_empty_iff_no_timer_pending (h : list (Props * Event)) :
  search (hooks (reached h)) = "" <-> timers (reached h) = [].
Proof.
  assert (Hinv : bufferInv (reached h))
    by (apply run_keeps_bufferInv; reflexivity).
  unfold bufferInv in Hinv.
  destruct (timers (reached h)) as [|t [|t' l]]; [now split| |contradiction].
  destruct Hinv as [Hne _]. split; [intros H; contradiction|discriminate].
Qed.

(* ================================================================== *)
(** ** Further properties: typing *)
(* ================================================================== *)

Lemma typedChar_parts (key : string) :
  isTypedChar key = true ->
  Js.testAlphanumeric key = true /\ String.length key = 1%nat.
Proof.
  unfold isTypedChar. intros H. apply andb_prop in H as [Ha Hl].
  split; [exact Ha|now apply Nat.eqb_eq].
Qed.

Lemma string_append_assoc (a b c : string) :
  ((a ++ b) ++ c)%string = (a ++ (b ++ c))%string.
Proof. induction a as [|x a IH]; simpl; [reflexivity|now rewrite IH]. Qed.

Lemma string_append_empty (a : string) : (a ++ "")%string = a.
Proof. induction a as [|x a IH]; simpl; [reflexivity|now rewrite IH]. Qed.

Lemma keystroke_focus (p : Props) (w : World) (key : string) :
  isSearchable p = true -> isTypedChar key = true ->
  focusedIndex (hooks (step p (MenuKeydown key) w))
  = if negb (matchIndex p (search (hooks w) ++ key) =? -1)
    then Some (matchIndex p (search (hooks w) ++ key))
    else focusedIndex (hooks w).
Proof.
  intros Hs Hkey. destruct (typedChar_parts key Hkey) as [Ha Hlen].
  destruct (single_char_is_no_key_name key Hlen) as (Hu & Hd & He).
  pose proof (single_char_nonempty key Hlen) as Hk.
  rewrite step_unfold. cbv zeta. simpl handle.
  unfold handleMenuKeydown. rewrite Hu, Hd, He, Hs, Ha, Hlen. simpl andb. cbv iota.
  set (w1 := exec (skip ;; setSearch (fun s => (s ++ key)%string)) w).
  assert (Hw1 : search (hooks w1) = (search (hooks w) ++ key)%string) by reflexivity.
  assert (Hf1 : focusedIndex (hooks w1) = focusedIndex (hooks w)) by reflexivity.
  rewrite Hw1.
  destruct (String.eqb_spec (search (hooks w) ++ key) (search (hooks w))) as [E|_].
  - exfalso. now apply (append_changes (search (hooks w)) key Hk).
  - assert (Hne : search (hooks w1) <> "")
      by (rewrite Hw1; now apply append_nonempty).
    now rewrite (searchEffect_focus_matchIndex p (hooks w1) w1 Hne Hs), Hw1, Hf1.
Qed.

Lemma typing_from (p : Props) (keys : list string) :
  isSearchable p = true ->
  Forall (fun key => isTypedChar key = true) keys ->
  forall w, timerInv w ->
    search (hooks (runKeys p keys w)) = (search (hooks w) ++ typedText keys)%string
    /\ now (runKeys p keys w) = now w
    /\ match keys with
       | [] => timers (runKeys p keys w) = timers w
       | _ :: _ =>
           exists id, timers (runKeys p keys w)
                      = [ {| timerId := id;
                             dueAt := now w + Z.max 0 (clearSearchAfter p) |} ]
       end.
Proof.
  intros Hs Hkeys. induction Hkeys as [|key keys Hkey Hrest IH]; intros w Hinv.
  - simpl. rewrite string_append_empty. repeat split.
  - destruct (typedChar_parts key Hkey) as [Ha Hlen].
    destruct (keystroke_restarts_timer p w key Hs Ha Hlen Hinv)
      as (Hb & Ht & _ & Hnow).
    pose proof (step_keeps_timerInv p (MenuKeydown key) w Hinv) as Hinv1.
    destruct (IH _ Hinv1) as (Hb' & Hnow' & Ht').
    unfold runKeys in *. simpl map. simpl run. simpl typedText.
    rewrite Hb', Hb, Hnow', Hnow, string_append_assoc.
    repeat split.
    destruct keys as [|key' keys].
    + simpl in *. eexists. exact Ht.
    + rewrite Hnow in Ht'. exact Ht'.
Qed.

(** X5.  Characters typed one after the other on a searchable widget,
    with no time going by in between, add up in the search buffer in the
    order they were typed, and leave one single clear timer pending, due
    [clearSearchAfter] ms after the last of them. *)
Theorem typing_accumulates (h : list (Props * Event)) (p : Props) (keys : list string) :
  isSearchable p = true ->
  Forall (fun key => isTypedChar key = true) keys ->
  search (hooks (runKeys p keys (reached h)))
    = (search (hooks (reached h)) ++ typedText keys)%string
  /\ now (runKeys p keys (reached h)) = now (reached h)
  /\ match keys with
     | [] => timers (runKeys p keys (reached h)) = timers (reached h)
     | _ :: _ =>
         exists id, timers (runKeys p keys (reached h))
                    = [ {| timerId := id;
                           dueAt := now (reached h) + Z.max 0 (clearSearchAfter p) |} ]
     end.
Proof.
  intros Hs Hkeys. apply typing_from; [exact Hs|exact Hkeys|].
  apply run_keeps_timerInv, initialWorld_timerInv.
Qed.

Lemma typing_accumulates_witness :
  search (hooks (runKeys fruits ["c"; "h"; "e"] (reached [(fruits, AnchorClick)])))
  = "che"
  /\ focusedIndex
       (hooks (runKeys fruits ["c"; "h"; "e"] (reached [(fruits, AnchorClick)])))
     = Some 2.
Proof.
  destruct (typing_accumulates [(fruits, AnchorClick)] fruits ["c"; "h"; "e"] eq_refl)
    as (Hbuffer & _).
  - repeat constructor.
  - split; [exact Hbuffer|reflexivity].
Defined.

Lemma elapse_keeps_focus (p : Props) (w : World) (ms : Z) :
  focusedIndex (hooks (step p (Elapse ms) w)) = focusedIndex (hooks w).
Proof.
  rewrite step_unfold. cbv zeta. simpl handle.
  change (exec (due <- advanceClock ms ;; fire due) w)
    with (exec (fire (fst (advanceClock ms w))) (snd (advanceClock ms w))).
  rewrite fire_once. unfold advanceClock. simpl fst. simpl snd.
  destruct (filter (isDue (now w + Z.max 0 ms)) (timers w)); simpl.
  - now rewrite String.eqb_refl.
  - destruct (search (hooks w)); reflexivity.
Qed.

(** X6.  Once [clearSearchAfter] ms have gone by after a typed
    character, the next typed character starts a new search: the buffer
    is that character alone, and the cursor goes to the first option
    matching it, or stays where the first search had left it. *)
Theorem timeout_starts_a_new_search
        (h : list (Props * Event)) (p : Props) (k1 k2 : string) (ms : Z) :
  isSearchable p = true ->
  isTypedChar k1 = true ->
  isTypedChar k2 = true ->
  Z.max 0 (clearSearchAfter p) <= ms ->
  search (hooks (run [(p, MenuKeydown k1); (p, Elapse ms); (p, MenuKeydown k2)]
                     (reached h))) = k2
  /\ focusedIndex
       (hooks (run [(p, MenuKeydown k1); (p, Elapse ms); (p, MenuKeydown k2)]
                   (reached h)))
     = (if negb (matchIndex p k2 =? -1) then Some (matchIndex p k2)
        else focusedIndex (hooks (step p (MenuKeydown k1) (reached h)))).
Proof.
  intros Hs Hk1 Hk2 Hms. simpl run.
  set (w := reached h). set (w1 := step p (MenuKeydown k1) w).
  set (w2 := step p (Elapse ms) w1).
  assert (Hinv : timerInv w) by (apply run_keeps_timerInv, initialWorld_timerInv).
  destruct (typedChar_parts k1 Hk1) as [Ha1 Hl1].
  destruct (typedChar_parts k2 Hk2) as [Ha2 Hl2].
  destruct (keystroke_restarts_timer p w k1 Hs Ha1 Hl1 Hinv) as (_ & Ht & _ & Hnow).
  fold w1 in Ht, Hnow.
  assert (Hms0 : 0 <= ms) by lia.
  destruct (elapse_fires_when_due p w1 _ ms Ht Hms0) as (Hs2 & _).
  fold w2 in Hs2. simpl dueAt in Hs2. rewrite Hnow in Hs2.
  destruct (Z.ltb_spec (now w + ms) (now w + Z.max 0 (clearSearchAfter p)));
    [lia|].
  assert (Hinv2 : timerInv w2) by (unfold w2, w1; now repeat apply step_keeps_timerInv).
  destruct (keystroke_restarts_timer p w2 k2 Hs Ha2 Hl2 Hinv2) as (Hb3 & _).
  rewrite (keystroke_focus p w2 k2 Hs Hk2), Hb3, Hs2. simpl String.append.
  split; [reflexivity|].
  unfold w2. now rewrite elapse_keeps_focus.
Qed.

Lemma timeout_starts_a_new_search_witness :
  search (hooks (run [(fruits, MenuKeydown "b"); (fruits, Elapse 500);
                      (fruits, MenuKeydown "c")] (reached [(fruits, AnchorClick)])))
  = "c"
  /\ focusedIndex
       (hooks (run [(fruits, MenuKeydown "b"); (fruits, Elapse 500);
                    (fruits, MenuKeydown "c")] (reached [(fruits, AnchorClick)])))
     = Some 2.
Proof.
  refine (timeout_starts_a_new_search [(fruits, AnchorClick)] fruits "b" "c" 500
            eq_refl eq_refl eq_refl _).
  vm_compute. discriminate.
Defined.

Lemma matchIndex_range (p : Props) (buffer : string) :
  matchIndex p buffer = -1
  \/ 0 <= matchIndex p buffer < Z.of_nat (List.length (children p)).
Proof.
  rewrite matchIndex_children.
  destruct (findIndexFrom_bounds (matches p buffer) (children p) 0) as [H|H];
    [now left|right; lia].
Qed.

Lemma matchIndex_longer (p : Props) (b k : string) :
  matchIndex p (b ++ k) <> -1 ->
  matchIndex p b <> -1 /\ matchIndex p b <= matchIndex p (b ++ k).
Proof.
  rewrite !matchIndex_children. intros Hlong.
  destruct (findIndexFrom_least _ _ 0 Hlong) as (n2 & c2 & Hk2 & Hn2 & Hc2 & _).
  assert (Hc2b : matches p b c2 = true)
    by (unfold matches, Js.startsWith in *; now apply (prefix_of_longer b k)).
  assert (Hshort : Js.findIndexFrom (matches p b) (children p) 0 <> -1).
  { apply (findIndexFrom_hit _ _ 0 c2); [lia| |exact Hc2b].
    eapply nth_error_In; eassumption. }
  split; [exact Hshort|].
  destruct (findIndexFrom_least _ _ 0 Hshort) as (n1 & c1 & Hk1 & _ & _ & Hb1).
  rewrite Hk1, Hk2.
  destruct (Nat.le_gt_cases n1 n2) as [Hle|Hgt]; [lia|].
  rewrite (Hb1 n2 c2 Hgt Hn2) in Hc2b. discriminate.
Qed.

(** X7.  Typing on narrows the search downwards: when the buffer after a
    second typed character still matches some option, the first
    character had matched too, and the cursor after the second character
    is on the same option or on one further down the list, never on one
    further up. *)
Theorem typing_on_never_moves_focus_up (p : Props) (w : World) (k1 k2 : string) :
  isSearchable p = true ->
  isTypedChar k1 = true ->
  isTypedChar k2 = true ->
  (exists c, In c (children p)
             /\ matches p ((search (hooks w) ++ k1) ++ k2) c = true) ->
  exists i j,
    focusedIndex (hooks (step p (MenuKeydown k1) w)) = Some i
    /\ focusedIndex (hooks (step p (MenuKeydown k2) (step p (MenuKeydown k1) w)))
       = Some j
    /\ 0 <= i <= j /\ j < Z.of_nat (List.length (children p)).
Proof.
  intros Hs Hk1 Hk2 (c & Hin & Hc).
  assert (Hlong : matchIndex p ((search (hooks w) ++ k1) ++ k2) <> -1).
  { rewrite matchIndex_children. apply (findIndexFrom_hit _ _ 0 c); [lia| |]; assumption. }
  destruct (matchIndex_longer p _ _ Hlong) as (Hshort & Hle).
  exists (matchIndex p (search (hooks w) ++ k1)),
         (matchIndex p ((search (hooks w) ++ k1) ++ k2)).
  rewrite (keystroke_focus p _ k2 Hs Hk2).
  rewrite menu_keydown_buffer, Hk1, Hs. simpl andb. cbv iota.
  rewrite (keystroke_focus p w k1 Hs Hk1).
  destruct (Z.eqb_spec (matchIndex p (search (hooks w) ++ k1)) (-1)); [contradiction|].
  destruct (Z.eqb_spec (matchIndex p ((search (hooks w) ++ k1) ++ k2)) (-1));
    [contradiction|].
  simpl. repeat split; try assumption.
  - destruct (matchIndex_range p (search (hooks w) ++ k1)); lia.
  - destruct (matchIndex_range p ((search (hooks w) ++ k1) ++ k2)); lia.
Qed.

Lemma typing_on_never_moves_focus_up_witness :
  exists i j,
    focusedIndex (hooks (step bananaChosen (MenuKeydown "c") initialWorld)) = Some i
    /\ focusedIndex (hooks (step bananaChosen (MenuKeydown "h")
                                 (step bananaChosen (MenuKeydown "c") initialWorld)))
       = Some j
    /\ 0 <= i <= j /\ j < Z.of_nat (List.length (children bananaChosen)).
Proof.
  apply (typing_on_never_moves_focus_up bananaChosen initialWorld "c" "h");
    try reflexivity.
  exists (textOption "cherry"). split; [right; right; left; reflexivity|reflexivity].
Defined.

(* ================================================================== *)
(** ** Further properties: where the cursor can be *)
(* ================================================================== *)

Lemma selectedIndex_range (p : Props) (k : Z) :
  selectedIndex p = Some k -> 0 <= k < Z.of_nat (List.length (children p)).
Proof.
  unfold selectedIndex, Js.findIndex.
  destruct (findIndexFrom_bounds
              (fun child => Js.strictEq (OptionProps.value child) (value p))
              (children p) 0) as [H|H].
  - rewrite H. discriminate.
  - destruct (Z.eqb_spec (Js.findIndexFrom
                            (fun child => Js.strictEq (OptionProps.value child) (value p))
                            (children p) 0) (-1)); simpl; [discriminate|].
    intros [= <-]. lia.
Qed.

Lemma handle_focus (p : Props) (ev : Event) (w : World) :
  focusedIndex (hooks (exec (handle p (hooks w) ev) w)) = focusedIndex (hooks w)
  \/ focusedIndex (hooks (exec (handle p (hooks w) ev) w))
     = Some (Js.orZero (selectedIndex p))
  \/ exists i, focusedIndex (hooks w) = Some i
               /\ ((i <> 0
                    /\ focusedIndex (hooks (exec (handle p (hooks w) ev) w))
                       = Some (i - 1))
                   \/ (i <> Z.of_nat (List.length (children p)) - 1
                       /\ focusedIndex (hooks (exec (handle p (hooks w) ev) w))
                          = Some (i + 1))).
Proof.
  destruct ev as [|key|key| |index v|i|ms]; simpl handle.
  - unfold handleAnchorClick, open, close.
    destruct (isOpen p (hooks w)), (isControlled p), (onClose p), (onOpen p);
      (now left) || (right; now left).
  - unfold handleAnchorKeydown, open.
    destruct (String.eqb key " "); [destruct (isControlled p), (onOpen p)|];
      (now left) || (right; now left).
  - unfold handleMenuKeydown, close, goToPreviousItem, goToNextItem.
    destruct (String.eqb key "ArrowUp");
      [|destruct (String.eqb key "ArrowDown"); [|destruct (String.eqb key "Escape")]];
      destruct (Js.testAlphanumeric key && isSearchable p
                && (String.length key =? 1)%nat);
      try (destruct (focusedIndex (hooks w)) as [j|] eqn:Hf);
      try (destruct (Z.eqb_spec j 0));
      try (destruct (Z.eqb_spec j (Z.of_nat (List.length (children p)) - 1)));
      try (destruct (isControlled p)); try (destruct (onClose p));
      simpl; rewrite ?Hf;
      try (now left);
      right; right; exists j; (split; [reflexivity|]);
      ((left; now split) || (right; now split)).
  - unfold close. destruct (isControlled p), (onClose p); now left.
  - unfold handleChildChange, handleChange. destruct (onChangeProp p); now left.
  - unfold activateOption, handleChildChange, handleChange.
    destruct (nth_error (items p (hooks w)) i); [destruct (onChangeProp p)|];
      now left.
  - change (exec (due <- advanceClock ms ;; fire due) w)
      with (exec (fire (fst (advanceClock ms w))) (snd (advanceClock ms w))).
    rewrite fire_once. destruct (fst (advanceClock ms w)); now left.
Qed.

Lemma searchEffect_keeps_focusWithin (p : Props) (r : State) (w : World) :
  focusWithin (List.length (children p)) w ->
  focusWithin (List.length (children p)) (exec (searchEffect p r) w).
Proof.
  intros Hw.
  destruct (string_dec (search r) "") as [He|Hne].
  - unfold searchEffect. now rewrite He.
  - destruct (isSearchable p) eqn:Hs.
    + unfold focusWithin.
      rewrite (searchEffect_focus_matchIndex p r w Hne Hs).
      destruct (Z.eqb_spec (matchIndex p (search r)) (-1)); simpl; [exact Hw|].
      destruct (matchIndex_range p (search r)); [contradiction|assumption].
    + unfold searchEffect. rewrite Hs. now destruct (search r).
Qed.

Lemma step_keeps_focusWithin (p : Props) (ev : Event) (w : World) :
  children p <> [] ->
  focusWithin (List.length (children p)) w ->
  focusWithin (List.length (children p)) (step p ev w).
Proof.
  intros Hne Hw.
  assert (Hn : (0 < List.length (children p))%nat)
    by (destruct (children p); [congruence|simpl; lia]).
  assert (H1 : focusWithin (List.length (children p))
                           (exec (handle p (hooks w) ev) w)).
  { unfold focusWithin in *.
    destruct (handle_focus p ev w) as [-> | [-> | (i & Hi & [(Hi0 & ->) | (Hil & ->)])]].
    - exact Hw.
    - destruct (selectedIndex p) as [k|] eqn:Hk; simpl.
      + now apply selectedIndex_range.
      + lia.
    - rewrite Hi in Hw. lia.
    - rewrite Hi in Hw. lia. }
  rewrite step_unfold. cbv zeta.
  destruct (String.eqb _ _); [exact H1|].
  now apply searchEffect_keeps_focusWithin.
Qed.

(** X8.  As long as the widget is rendered with a fixed, non-zero number
    of options, the cursor is null or the index of one of them, whatever
    the events and whatever else changes in the props. *)
Theorem focus_stays_within_the_options (n : nat) (h : list (Props * Event)) :
  n <> 0%nat ->
  Forall (fun pe => List.length (children (fst pe)) = n) h ->
  focusWithin n (reached h).
Proof.
  intros Hn Hh. unfold reached.
  assert (H : forall w, focusWithin n w -> focusWithin n (run h w)).
  { induction Hh as [|[p ev] h Hp _ IH]; intros w Hw; simpl; [exact Hw|].
    apply IH. simpl in Hp. subst n. apply step_keeps_focusWithin; [|exact Hw].
    intros E. rewrite E in Hn. now apply Hn. }
  apply H. exact I.
Qed.

Lemma focus_stays_within_the_options_witness :
  focusWithin 3 (reached [(fruits, AnchorClick); (fruits, MenuKeydown "ArrowDown");
                          (bananaChosen, MenuKeydown "c");
                          (fruits, MenuKeydown "ArrowDown")]).
Proof.
  apply focus_stays_within_the_options.
  - discriminate.
  - repeat constructor.
Defined.

Lemma arrowDown_without_options (p : Props) (w : World) (i : Z) :
  children p = [] -> focusedIndex (hooks w) = Some i -> 0 <= i ->
  focusedIndex (hooks (step p (MenuKeydown "ArrowDown") w)) = Some (i + 1).
Proof.
  intros Hc Hf Hi. rewrite arrowDown_step.
  unfold exec, bind, call, goToNextItem. simpl. rewrite Hf, Hc. simpl.
  destruct (Z.eqb_spec i (-1)); [lia|reflexivity].
Qed.

(** X9.  On a widget without options, opening puts the cursor on index
    0, and ArrowDown is not clamped: each press moves the cursor one
    index further, although there is no option there. *)
Theorem arrow_down_runs_away_without_options (p : Props) (w : World) (k : nat) :
  children p = [] ->
  focusedIndex (hooks (exec (open p) w)) = Some 0
  /\ focusedIndex (hooks (runKeys p (repeat "ArrowDown" k) (exec (open p) w)))
     = Some (Z.of_nat k).
Proof.
  intros Hc.
  assert (H0 : focusedIndex (hooks (exec (open p) w)) = Some 0).
  { rewrite open_sets_focus. unfold selectedIndex. now rewrite Hc. }
  split; [exact H0|].
  assert (H : forall w' i, focusedIndex (hooks w') = Some i -> 0 <= i ->
                focusedIndex (hooks (runKeys p (repeat "ArrowDown" k) w'))
                = Some (i + Z.of_nat k)).
  { induction k as [|k IH]; intros w' i Hf Hi.
    - unfold runKeys. simpl. rewrite Hf. f_equal. lia.
    - unfold runKeys in *. simpl repeat. simpl map. simpl run.
      rewrite (IH _ (i + 1)); [f_equal; lia| |lia].
      now apply arrowDown_without_options. }
  now rewrite (H _ 0 H0).
Qed.

Lemma arrow_down_runs_away_without_options_witness :
  focusedIndex (hooks (exec (open noOptions) initialWorld)) = Some 0
  /\ focusedIndex (hooks (runKeys noOptions (repeat "ArrowDown" 3)
                                  (exec (open noOptions) initialWorld)))
     = Some 3.
Proof.
  apply (arrow_down_runs_away_without_options noOptions initialWorld 3).
  reflexivity.
Defined.

(* ================================================================== *)
(** ** Further properties: opening and closing *)
(* ================================================================== *)

Lemma handle_calls_uncontrolled (p : Props) (ev : Event) (w : World) :
  isControlled p = false ->
  exists l, calls (exec (handle p (hooks w) ev) w) = calls w ++ l
            /\ forallb (fun c => negb (isOpenCloseCall c)) l = true.
Proof.
  intros Hc.
  assert (Hsame : forall w', calls w' = calls w ->
            exists l, calls w' = calls w ++ l
                      /\ forallb (fun c => negb (isOpenCloseCall c)) l = true).
  { intros w' H. exists []. now rewrite app_nil_r. }
  destruct ev as [|key|key| |index v|i|ms]; simpl handle.
  - unfold handleAnchorClick, open, close. rewrite Hc.
    destruct (isOpen p (hooks w)); now apply Hsame.
  - unfold handleAnchorKeydown, open. rewrite Hc.
    destruct (String.eqb key " "); now apply Hsame.
  - unfold handleMenuKeydown, close, goToPreviousItem, goToNextItem. rewrite Hc.
    destruct (String.eqb key "ArrowUp");
      [|destruct (String.eqb key "ArrowDown"); [|destruct (String.eqb key "Escape")]];
      destruct (Js.testAlphanumeric key && isSearchable p
                && (String.length key =? 1)%nat);
      try (destruct (focusedIndex (hooks w)) as [j|]);
      try (destruct (negb (j =? 0)));
      try (destruct (negb (j =? Z.of_nat (List.length (children p)) - 1)));
      first [ now apply Hsame
            | eexists; split; [reflexivity|reflexivity] ].
  - unfold close. rewrite Hc. now apply Hsame.
  - unfold handleChildChange, handleChange. destruct (onChangeProp p);
      [eexists; split; reflexivity|now apply Hsame].
  - unfold activateOption, handleChildChange, handleChange.
    destruct (nth_error (items p (hooks w)) i); [destruct (onChangeProp p)|];
      first [ now apply Hsame | eexists; split; reflexivity ].
  - change (exec (due <- advanceClock ms ;; fire due) w)
      with (exec (fire (fst (advanceClock ms w))) (snd (advanceClock ms w))).
    rewrite fire_once. destruct (fst (advanceClock ms w)); now apply Hsame.
Qed.

Lemma step_calls_uncontrolled (p : Props) (ev : Event) (w : World) :
  isControlled p = false ->
  forallb (fun c => negb (isOpenCloseCall c)) (calls w) = true ->
  forallb (fun c => negb (isOpenCloseCall c)) (calls (step p ev w)) = true.
Proof.
  intros Hc Hw.
  destruct (handle_calls_uncontrolled p ev w Hc) as (l & Hl & Hok).
  assert (H1 : forallb (fun c => negb (isOpenCloseCall c))
                       (calls (exec (handle p (hooks w) ev) w)) = true)
    by (rewrite Hl, forallb_app, Hw, Hok; reflexivity).
  rewrite step_unfold. cbv zeta.
  destruct (String.eqb _ _); [exact H1|].
  destruct (searchEffect_keeps_open_flag p
              (hooks (exec (handle p (hooks w) ev) w))
              (exec (handle p (hooks w) ev) w)) as [_ ->].
  exact H1.
Qed.

(** X10.  A widget that is never given the [isOpen] prop never calls
    [onOpen] or [onClose], even when the owner supplies them: opening
    and closing an uncontrolled widget is not reported. *)
Theorem uncontrolled_widget_never_reports_open_or_close (h : list (Props * Event)) :
  Forall (fun pe => isControlled (fst pe) = false) h ->
  forallb (fun c => negb (isOpenCloseCall c)) (calls (reached h)) = true.
Proof.
  intros Hh. unfold reached.
  assert (H : forall w,
            forallb (fun c => negb (isOpenCloseCall c)) (calls w) = true ->
            forallb (fun c => negb (isOpenCloseCall c)) (calls (run h w)) = true).
  { induction Hh as [|[p ev] h Hp _ IH]; intros w Hw; simpl; [exact Hw|].
    apply IH. now apply step_calls_uncontrolled. }
  now apply H.
Qed.

Lemma uncontrolled_widget_never_reports_open_or_close_witness :
  calls (reached [(fruits, AnchorClick); (fruits, MenuKeydown "ArrowDown");
                  (fruits, ItemActivate 1); (fruits, MenuKeydown "Escape")])
  = [PreventDefault;
     CallOnChange {| ev_value := Js.Str "banana"; ev_selectedIndex := 1 |};
     FocusAnchor]
  /\ forallb (fun c => negb (isOpenCloseCall c))
       (calls (reached [(fruits, AnchorClick); (fruits, MenuKeydown "ArrowDown");
                        (fruits, ItemActivate 1); (fruits, MenuKeydown "Escape")]))
     = true.
Proof.
  split; [reflexivity|].
  apply uncontrolled_widget_never_reports_open_or_close. repeat constructor.
Defined.

(** X11.  Escape on the menu closes it (an uncontrolled widget is closed
    afterwards, a controlled one asks its owner through [onClose]) and
    then gives the keyboard focus back to the anchor; cursor, search
    buffer and clear timer stay as they are, also on a searchable widget,
    where the key name is not taken for typed text. *)
Theorem escape_closes_and_refocuses_the_anchor (p : Props) (w : World) :
  isOpen p (hooks (step p (MenuKeydown "Escape") w))
    = match controlledOpen p with Some b => b | None => false end
  /\ calls (step p (MenuKeydown "Escape") w)
     = calls w
       ++ match controlledOpen p with
          | Some _ => requested (onClose p) CallOnClose
          | None => []
          end
       ++ [FocusAnchor]
  /\ focusedIndex (hooks (step p (MenuKeydown "Escape") w)) = focusedIndex (hooks w)
  /\ search (hooks (step p (MenuKeydown "Escape") w)) = search (hooks w)
  /\ timers (step p (MenuKeydown "Escape") w) = timers w.
Proof.
  rewrite step_unfold. cbv zeta. simpl handle.
  unfold handleMenuKeydown, close, isOpen, isControlled.
  destruct (isSearchable p), (controlledOpen p) as [b|]; try destruct (onClose p);
    simpl; rewrite String.eqb_refl; simpl; rewrite <- ?app_assoc; repeat split.
Qed.

(** X12.  Two clicks on the anchor of an uncontrolled widget bring the
    menu back to the open state it had, and whichever of the two clicks
    opened the menu has put the cursor on the selected option's index (0
    when none is identical to [value]), where the closing click leaves
    it. *)
Theorem two_clicks_restore_the_menu (p : Props) (w : World) :
  isControlled p = false ->
  isOpen p (hooks (step p AnchorClick (step p AnchorClick w))) = isOpen p (hooks w)
  /\ focusedIndex (hooks (step p AnchorClick (step p AnchorClick w)))
     = Some (Js.orZero (selectedIndex p)).
Proof.
  intros Hc. rewrite !anchorClick_step.
  unfold handleAnchorClick, open, close, isOpen. rewrite Hc.
  unfold isControlled in Hc.
  destruct (controlledOpen p); [discriminate|].
  destruct (uncontrolledOpen (hooks w)) eqn:Ho; simpl; rewrite ?Ho; now split.
Qed.

Lemma two_clicks_restore_the_menu_witness :
  isOpen bananaChosen
         (hooks (step bananaChosen AnchorClick
                      (step bananaChosen AnchorClick
                            (worldOf (openedAt (Some 2) "")))))
  = true
  /\ focusedIndex
       (hooks (step bananaChosen AnchorClick
                    (step bananaChosen AnchorClick (worldOf (openedAt (Some 2) "")))))
     = Some 1.
Proof.
  apply (two_clicks_restore_the_menu bananaChosen (worldOf (openedAt (Some 2) ""))).
  reflexivity.
Defined.

(* ================================================================== *)
(** ** Further properties: what is rendered *)
(* ================================================================== *)

Lemma item_inv (p : Props) (r : State) (i : nat) (it : Item) :
  nth_error (items p r) i = Some it ->
  exists c, nth_error (children p) i = Some c
            /\ it = {| itemProps := c;
                       selected := Js.isDeepEqual (OptionProps.value c) (value p);
                       active := match focusedIndex r with
                                 | Some j => j =? Z.of_nat i
                                 | None => false
                                 end;
                       onChangeIndex := Z.of_nat i |}.
Proof.
  intros H. destruct (nth_error (children p) i) as [c|] eqn:Hc.
  - rewrite (item_at p r i c Hc) in H. injection H as <-. now exists c.
  - unfold items, Js.mapIndexed in H. rewrite nth_error_mapFrom, Hc in H.
    discriminate.
Qed.

Lemma active_iff (r : State) (i : nat) :
  match focusedIndex r with
  | Some j => j =? Z.of_nat i
  | None => false
  end = true <-> focusedIndex r = Some (Z.of_nat i).
Proof.
  destruct (focusedIndex r) as [j|]; split; intros H; try discriminate.
  - apply Z.eqb_eq in H. now subst.
  - injection H as ->. apply Z.eqb_refl.
Qed.

Lemma length_mapFrom {A B : Type} (f : A -> Z -> B) (l : list A) (k : Z) :
  List.length (Js.mapFrom f l k) = List.length l.
Proof. revert k. induction l as [|a l IH]; intros k; simpl; [|rewrite IH]; reflexivity. Qed.

(** X13.  The rendered items are the options in order, one item per
    option; the item at position [i] reports changes under index [i],
    is the active one exactly when the cursor is [i], and no two items
    are active at once. *)
Theorem items_follow_the_options (p : Props) (r : State) (i : nat) (it : Item) :
  nth_error (items p r) i = Some it ->
  List.length (items p r) = List.length (children p)
  /\ nth_error (children p) i = Some (itemProps it)
  /\ onChangeIndex it = Z.of_nat i
  /\ (active it = true <-> focusedIndex r = Some (Z.of_nat i))
  /\ forall j other, nth_error (items p r) j = Some other ->
                     active it = true -> active other = true -> j = i.
Proof.
  intros H. destruct (item_inv p r i it H) as (c & Hc & ->). simpl.
  split; [apply length_mapFrom|]. split; [exact Hc|]. split; [reflexivity|].
  split; [apply active_iff|].
  intros j other Hj Hi Ho.
  destruct (item_inv p r j other Hj) as (c' & _ & ->). simpl in Ho.
  apply active_iff in Hi, Ho. rewrite Hi in Ho. injection Ho as Ho. lia.
Qed.

Lemma items_follow_the_options_witness :
  List.length (items fruits (openedAt (Some 1) "")) = 3%nat
  /\ map active (items fruits (openedAt (Some 1) "")) = [false; true; false].
Proof.
  destruct (items_follow_the_options fruits (openedAt (Some 1) "") 1
              {| itemProps := textOption "banana"; selected := false;
                 active := true; onChangeIndex := 1 |} eq_refl)
    as (Hlen & _).
  split; [exact Hlen|reflexivity].
Defined.

Lemma findIndexFrom_miss {A : Type} (f : A -> bool) (l : list A) (i : Z) :
  0 <= i -> Js.findIndexFrom f l i = -1 -> forall x, In x l -> f x = false.
Proof.
  intros Hi H x Hin. destruct (f x) eqn:Hx; [|reflexivity].
  exfalso. now apply (findIndexFrom_hit f l i x Hi Hin Hx).
Qed.

(** X14.  The option the anchor stands for is the first option, in list
    order, whose value is identical ([===]) to the [value] prop:
    [selectedIndex] is its position, [selectedChild] is that option and
    the anchor's aria label is its title.  When no option is identical to
    [value], [selectedIndex] is null, there is no selected child, the
    anchor shows the placeholder and has no aria label. *)
Theorem anchor_stands_for_first_identical_option (p : Props) :
  match selectedIndex p with
  | Some k =>
      exists n c,
        k = Z.of_nat n
        /\ nth_error (children p) n = Some c
        /\ selectedChild p = Some c
        /\ Js.strictEq (OptionProps.value c) (value p) = true
        /\ (forall m c', (m < n)%nat -> nth_error (children p) m = Some c' ->
                         Js.strictEq (OptionProps.value c') (value p) = false)
        /\ ariaLabel p = OptionProps.title c
  | None =>
      (forall c, In c (children p) ->
                 Js.strictEq (OptionProps.value c) (value p) = false)
      /\ selectedChild p = None
      /\ displayedValue p = placeholder p
      /\ ariaLabel p = None
  end.
Proof.
  unfold ariaLabel, displayedValue, selectedChild.
  destruct (selectedIndex p) as [k|] eqn:Hsel.
  - unfold selectedIndex, Js.findIndex in Hsel.
    destruct (Z.eqb_spec
                (Js.findIndexFrom
                   (fun child => Js.strictEq (OptionProps.value child) (value p))
                   (children p) 0) (-1)) as [E|Hne]; simpl in Hsel; [discriminate|].
    injection Hsel as <-.
    destruct (findIndexFrom_least _ _ 0 Hne) as (n & c & Hk & Hn & Hc & Hb).
    exists n, c. rewrite Hk. simpl Z.add. rewrite Nat2Z.id, Hn.
    repeat split; assumption.
  - unfold selectedIndex, Js.findIndex in Hsel.
    destruct (Z.eqb_spec
                (Js.findIndexFrom
                   (fun child => Js.strictEq (OptionProps.value child) (value p))
                   (children p) 0) (-1)) as [E|Hne]; simpl in Hsel; [|discriminate].
    repeat split. now apply (findIndexFrom_miss _ _ 0 (Z.le_refl 0) E).
Qed.

(** X15.  Only typing and the passing of time touch a running search:
    clicking or pressing keys on the anchor, committing an item and
    closing the menu leave the search buffer, the pending clear timer
    and the clock as they are, so a search that was going on when the
    menu was closed is still there when it is opened again. *)
Theorem only_typing_and_time_touch_the_search (p : Props) (ev : Event) (w : World) :
  match ev with
  | MenuKeydown _ | Elapse _ => True
  | _ =>
      search (hooks (step p ev w)) = search (hooks w)
      /\ timers (step p ev w) = timers w
      /\ searchClearTimeout (step p ev w) = searchClearTimeout w
  end.
Proof.
  destruct (handle_buffer p ev w) as (Href & H).
  destruct ev as [|key|key| |index v|i|ms]; try exact I;
    destruct H as (Ht & Hs);
    rewrite (step_same_buffer p _ w Hs); now repeat split.
Qed.

(** X16.  Opening highlights what the anchor shows: after [open], the
    active item is the option the anchor stands for (the first one
    identical to [value]); when there is none, it is the first option of
    the list, if the list has one. *)
Theorem opening_highlights_the_shown_option (p : Props) (w : World) :
  match selectedIndex p with
  | Some k =>
      exists c it,
        selectedChild p = Some c
        /\ nth_error (items p (hooks (exec (open p) w))) (Z.to_nat k) = Some it
        /\ itemProps it = c /\ active it = true
  | None =>
      match children p with
      | [] => items p (hooks (exec (open p) w)) = []
      | c :: _ =>
          exists it,
            nth_error (items p (hooks (exec (open p) w))) 0 = Some it
            /\ itemProps it = c /\ active it = true
      end
  end.
Proof.
  pose proof (open_sets_focus p w) as Hfocus.
  destruct (selectedIndex p) as [k|] eqn:Hsel.
  - pose proof (selectedIndex_range p k Hsel) as Hk.
    unfold selectedChild. rewrite Hsel.
    destruct (nth_error (children p) (Z.to_nat k)) as [c|] eqn:Hc.
    + exists c. eexists. split; [reflexivity|].
      split; [apply item_at; exact Hc|]. simpl. split; [reflexivity|].
      rewrite Hfocus. simpl. rewrite Z2Nat.id by lia. apply Z.eqb_refl.
    + apply nth_error_None in Hc. lia.
  - destruct (children p) as [|c cs] eqn:Hcs.
    + unfold items. now rewrite Hcs.
    + eexists. split; [apply item_at; now rewrite Hcs|].
      simpl. split; [reflexivity|]. now rewrite Hfocus.
Qed.

(* ================================================================== *)
(** ** The clear timer, over whole histories *)
(* ================================================================== *)

Lemma handle_clock (p : Props) (ev : Event) (w : World) :
  nextTimerId (exec (handle p (hooks w) ev) w) = nextTimerId w
  /\ now (exec (handle p (hooks w) ev) w)
     = match ev with
       | Elapse ms => now w + Z.max 0 ms
       | _ => now w
       end.
Proof.
  destruct ev as [|key|key| |index v|i|ms]; simpl handle.
  - unfold handleAnchorClick, open, close.
    destruct (isOpen p (hooks w)), (isControlled p), (onClose p), (onOpen p);
      now split.
  - unfold handleAnchorKeydown, open.
    destruct (String.eqb key " "); [destruct (isControlled p), (onOpen p)|];
      now split.
  - unfold handleMenuKeydown, close, goToPreviousItem, goToNextItem.
    destruct (String.eqb key "ArrowUp");
      [|destruct (String.eqb key "ArrowDown"); [|destruct (String.eqb key "Escape")]];
      destruct (Js.testAlphanumeric key && isSearchable p
                && (String.length key =? 1)%nat);
      try (destruct (focusedIndex (hooks w)) as [j|]);
      try (destruct (negb (j =? 0)));
      try (destruct (negb (j =? Z.of_nat (List.length (children p)) - 1)));
      try (destruct (isControlled p)); try (destruct (onClose p)); now split.
  - unfold close. destruct (isControlled p), (onClose p); now split.
  - unfold handleChildChange, handleChange. destruct (onChangeProp p); now split.
  - unfold activateOption, handleChildChange, handleChange.
    destruct (nth_error (items p (hooks w)) i); [destruct (onChangeProp p)|];
      now split.
  - change (exec (due <- advanceClock ms ;; fire due) w)
      with (exec (fire (fst (advanceClock ms w))) (snd (advanceClock ms w))).
    rewrite fire_once. destruct (fst (advanceClock ms w)); now split.
Qed.

Lemma elapse_step (p : Props) (w : World) (ms : Z) :
  step p (Elapse ms) w = exec (handle p (hooks w) (Elapse ms)) w.
Proof.
  rewrite step_unfold. cbv zeta.
  destruct (handle_buffer p (Elapse ms) w) as (_ & _ & Hs).
  destruct (filter (isDue (now w + Z.max 0 ms)) (timers w)).
  - now rewrite Hs, String.eqb_refl.
  - destruct (String.eqb _ _); [reflexivity|].
    unfold searchEffect. now rewrite Hs.
Qed.

Lemma quiet_step (p : Props) (ev : Event) (w : World) :
  appendsToBuffer p ev = false ->
  step p ev w = exec (handle p (hooks w) ev) w
  /\ (forall ms, ev <> Elapse ms) ->
  search (hooks (step p ev w)) = search (hooks w)
  /\ timers (step p ev w) = timers w
  /\ now (step p ev w) = now w.
Proof.
  intros Hq [Hstep Hev]. rewrite Hstep.
  destruct (handle_buffer p ev w) as (_ & H).
  destruct (handle_clock p ev w) as (_ & Hnow).
  destruct ev as [|key|key| |index v|i|ms];
    try (destruct H as (Ht & Hs); now repeat split).
  - simpl in Hq. rewrite Hq in H. destruct H as (Ht & Hs). now repeat split.
  - exfalso. now apply (Hev ms).
Qed.

Lemma quiet_step_same (p : Props) (ev : Event) (w : World) :
  appendsToBuffer p ev = false -> (forall ms, ev <> Elapse ms) ->
  search (hooks (step p ev w)) = search (hooks w)
  /\ timers (step p ev w) = timers w
  /\ now (step p ev w) = now w.
Proof.
  intros Hq Hev. apply quiet_step; [exact Hq|]. split; [|exact Hev].
  apply step_same_buffer.
  destruct (handle_buffer p ev w) as (_ & H).
  destruct ev as [|key|key| |index v|i|ms]; try (now destruct H).
  - simpl in Hq. rewrite Hq in H. now destruct H.
  - exfalso. now apply (Hev ms).
Qed.

Lemma elapsed_nonneg (q : list (Props * Event)) : 0 <= elapsed q.
Proof.
  induction q as [|[p ev] q IH]; simpl; [lia|].
  destruct ev; lia.
Qed.

Lemma elapse_idle (p : Props) (w : World) (ms : Z) :
  timers w = [] ->
  search (hooks (step p (Elapse ms) w)) = search (hooks w)
  /\ timers (step p (Elapse ms) w) = [].
Proof.
  intros Ht. rewrite elapse_step.
  destruct (handle_buffer p (Elapse ms) w) as (_ & Ht' & Hs).
  rewrite Ht in Ht', Hs. simpl in Ht', Hs. now split.
Qed.

Lemma elapse_pending (p : Props) (w : World) (t : Timer) (ms : Z) :
  timers w = [t] ->
  search (hooks (step p (Elapse ms) w))
    = (if now w + Z.max 0 ms <? dueAt t then search (hooks w) else "")
  /\ timers (step p (Elapse ms) w)
    = (if now w + Z.max 0 ms <? dueAt t then [t] else [])
  /\ now (step p (Elapse ms) w) = now w + Z.max 0 ms.
Proof.
  intros Ht. rewrite elapse_step.
  destruct (handle_buffer p (Elapse ms) w) as (_ & Ht' & Hs).
  destruct (handle_clock p (Elapse ms) w) as (_ & Hnow).
  rewrite Ht in Ht', Hs. simpl filter in Ht', Hs. unfold isDue in Ht', Hs.
  rewrite Ht', Hs, Hnow.
  destruct (Z.ltb_spec (now w + Z.max 0 ms) (dueAt t));
    destruct (Z.leb_spec (dueAt t) (now w + Z.max 0 ms)); try lia; now repeat split.
Qed.

Lemma not_elapse_dec (ev : Event) :
  (exists ms, ev = Elapse ms) \/ (forall ms, ev <> Elapse ms).
Proof. destruct ev; (right; discriminate) || (left; eexists; reflexivity). Qed.

Lemma quiet_run_idle (q : list (Props * Event)) :
  Forall quiet q ->
  forall w, timers w = [] ->
    search (hooks (run q w)) = search (hooks w) /\ timers (run q w) = [].
Proof.
  induction 1 as [|[p ev] q Hq _ IH]; intros w Ht; simpl run.
  - now split.
  - destruct (not_elapse_dec ev) as [[ms ->]|Hev].
    + destruct (elapse_idle p w ms Ht) as (Hs1 & Ht1).
      destruct (IH _ Ht1) as (Hs2 & Ht2). rewrite Hs2, Hs1. now split.
    + destruct (quiet_step_same p ev w Hq Hev) as (Hs1 & Ht1 & _).
      rewrite Ht in Ht1. destruct (IH _ Ht1) as (Hs2 & Ht2).
      rewrite Hs2, Hs1. now split.
Qed.

Lemma runsOut_spec (d : Z) (q : list (Props * Event)) :
  runsOut d q = (if 0 <? d then d <=? elapsed q else timePasses q).
Proof.
  revert d. induction q as [|[p ev] q IH]; intros d; simpl.
  - destruct (Z.ltb_spec 0 d); [|reflexivity].
    destruct (Z.leb_spec d 0); [lia|reflexivity].
  - pose proof (elapsed_nonneg q) as Hq.
    destruct ev as [|key|key| |index v|i|ms]; try apply IH.
    rewrite IH. simpl.
    destruct (Z.ltb_spec 0 d) as [Hd|Hd].
    + destruct (Z.leb_spec d (Z.max 0 ms)) as [Hm|Hm]; simpl.
      * destruct (Z.leb_spec d (Z.max 0 ms + elapsed q)); [reflexivity|lia].
      * destruct (Z.ltb_spec 0 (d - Z.max 0 ms)); [|lia].
        destruct (Z.leb_spec (d - Z.max 0 ms) (elapsed q));
          destruct (Z.leb_spec d (Z.max 0 ms + elapsed q)); lia || reflexivity.
    + destruct (Z.leb_spec d (Z.max 0 ms)); [reflexivity|lia].
Qed.

Lemma quiet_run_pending (q : list (Props * Event)) :
  Forall quiet q ->
  forall w t, timers w = [t] ->
    search (hooks (run q w))
      = (if runsOut (dueAt t - now w) q then "" else search (hooks w))
    /\ timers (run q w)
      = (if runsOut (dueAt t - now w) q then [] else [t]).
Proof.
  induction 1 as [|[p ev] q Hq Hrest IH]; intros w t Ht; simpl run.
  - simpl. now split.
  - destruct (not_elapse_dec ev) as [[ms ->]|Hev].
    + destruct (elapse_pending p w t ms Ht) as (Hs1 & Ht1 & Hnow1).
      simpl runsOut.
      destruct (Z.ltb_spec (now w + Z.max 0 ms) (dueAt t)) as [Hlt|Hge].
      * destruct (Z.leb_spec (dueAt t - now w) (Z.max 0 ms)); [lia|]. simpl orb.
        destruct (IH _ t Ht1) as (Hs2 & Ht2).
        rewrite Hnow1 in Hs2, Ht2.
        replace (dueAt t - (now w + Z.max 0 ms))
          with (dueAt t - now w - Z.max 0 ms) in Hs2, Ht2 by lia.
        rewrite Hs2, Ht2, Hs1. now split.
      * destruct (Z.leb_spec (dueAt t - now w) (Z.max 0 ms)); [|lia]. simpl orb.
        destruct (quiet_run_idle q Hrest _ Ht1) as (Hs2 & Ht2).
        rewrite Hs2, Ht2, Hs1. now split.
    + destruct (quiet_step_same p ev w Hq Hev) as (Hs1 & Ht1 & Hnow1).
      rewrite Ht in Ht1. destruct (IH _ t Ht1) as (Hs2 & Ht2).
      rewrite Hnow1, Hs1 in Hs2. rewrite Hnow1 in Ht2.
      assert (Hr : runsOut (dueAt t - now w) ((p, ev) :: q)
                   = runsOut (dueAt t - now w) q).
      { destruct ev; try reflexivity. exfalso. now apply (Hev ms). }
      rewrite Hr. now split.
Qed.

Lemma only_a_due_timer_empties (p : Props) (ev : Event) (w : World) :
  search (hooks w) <> "" ->
  search (hooks (step p ev w)) = "" ->
  exists ms t, ev = Elapse ms /\ In t (timers w)
               /\ dueAt t <= now w + Z.max 0 ms.
Proof.
  intros Hne Hempty. rewrite step_buffer in Hempty.
  destruct (handle_buffer p ev w) as (_ & H).
  destruct ev as [|key|key| |index v|i|ms];
    try (destruct H as (_ & Hs); rewrite Hs in Hempty; contradiction).
  - destruct H as (_ & Hs). rewrite Hs in Hempty.
    destruct (isTypedChar key && isSearchable p); [|contradiction].
    destruct (search (hooks w)); [contradiction|discriminate].
  - destruct H as (_ & Hs). rewrite Hs in Hempty.
    destruct (filter (isDue (now w + Z.max 0 ms)) (timers w)) as [|t l] eqn:Hf;
      [contradiction|].
    assert (Hin : In t (filter (isDue (now w + Z.max 0 ms)) (timers w)))
      by (rewrite Hf; now left).
    apply filter_In in Hin as [Hin Hdue].
    exists ms, t. repeat split; [exact Hin|].
    unfold isDue in Hdue. now apply Z.leb_le.
Qed.

Lemma searchEffect_known (p : Props) (r : State) (w : World) :
  timersKnown w -> timersKnown (exec (searchEffect p r) w).
Proof.
  intros Hw. unfold searchEffect.
  destruct (search r); [exact Hw|].
  destruct (negb (isSearchable p)); [exact Hw|].
  assert (H : forall w', nextTimerId w' = nextTimerId w + 1 ->
            timers w'
            = match searchClearTimeout w with
              | Some i => filter (fun t => negb (timerId t =? i)) (timers w)
              | None => timers w
              end ++ [ {| timerId := nextTimerId w;
                          dueAt := now w + Z.max 0 (clearSearchAfter p) |} ] ->
            timersKnown w').
  { intros w' Hn Ht t Hin. rewrite Hn. rewrite Ht in Hin.
    apply in_app_or in Hin as [Hin | [<- | []]]; simpl; [|lia].
    assert (In t (timers w)).
    { destruct (searchClearTimeout w); [|exact Hin].
      now apply filter_In in Hin as [Hin _]. }
    specialize (Hw t H). lia. }
  unfold exec, bind, readSearchClearTimeout, clearTimeout, setTimeout,
    writeSearchClearTimeout, setFocusedIndex, modifyState, skip, ret. simpl.
  match goal with |- context [if ?b then _ else _] => destruct b end;
    apply H; reflexivity.
Qed.

Lemma step_known (p : Props) (ev : Event) (w : World) :
  timersKnown w -> timersKnown (step p ev w).
Proof.
  intros Hw.
  assert (H1 : timersKnown (exec (handle p (hooks w) ev) w)).
  { destruct (handle_buffer p ev w) as (_ & H).
    destruct (handle_clock p ev w) as (Hn & _).
    intros t Hin. rewrite Hn. apply Hw.
    destruct ev as [|key|key| |index v|i|ms];
      try (destruct H as (Ht & _); now rewrite Ht in Hin).
    destruct H as (Ht & _). rewrite Ht in Hin.
    now apply filter_In in Hin as [Hin _]. }
  rewrite step_unfold. cbv zeta.
  destruct (String.eqb _ _); [exact H1|now apply searchEffect_known].
Qed.

Lemma run_known (h : list (Props * Event)) (w : World) :
  timersKnown w -> timersKnown (run h w).
Proof.
  revert w. induction h as [|[p ev] h IH]; intros w Hw; simpl; [exact Hw|].
  apply IH. now apply step_known.
Qed.

Lemma initialWorld_known : timersKnown initialWorld.
Proof. intros t []. Qed.

(** C7 (amended).  In every world the widget can reach, at most one
    clear timer is pending, and its handle is one the window has handed
    out before.  A character typed on a searchable widget is appended to
    the search buffer (and stays there, match or no match), cancels the
    pending clear and schedules a new one under a fresh handle,
    [clearSearchAfter] ms (500 when the prop is absent) from now.
    Whatever happens next that appends nothing (time going by in one or
    several stretches, arrow keys, Escape, clicks, commits, with any
    props), the buffer and the timer are kept for as long as less than
    [clearSearchAfter] ms have gone by since that keystroke, and the
    buffer is empty with no timer pending once they have; with a delay
    of zero or less the clear happens as soon as time passes at all.
    Nothing but a due timer empties the buffer: an event that turns a
    non-empty buffer into the empty one is the passing of time, with a
    pending timer that is due by then. *)
Theorem C7_buffer_is_cleared_by_the_timer
        (h q : list (Props * Event)) (p : Props) (key : string) :
  isSearchable p = true ->
  isTypedChar key = true ->
  Forall quiet q ->
  (List.length (timers (reached h)) <= 1)%nat
  /\ timersKnown (reached h)
  /\ clearSearchAfter p
     = match clearSearchAfterProp p with Some d => d | None => 500 end
  /\ search (hooks (step p (MenuKeydown key) (reached h)))
     = (search (hooks (reached h)) ++ key)%string
  /\ timers (step p (MenuKeydown key) (reached h))
     = [ {| timerId := nextTimerId (reached h);
            dueAt := now (reached h) + Z.max 0 (clearSearchAfter p) |} ]
  /\ search (hooks (run q (step p (MenuKeydown key) (reached h))))
     = (if 0 <? clearSearchAfter p
        then if elapsed q <? clearSearchAfter p
             then search (hooks (step p (MenuKeydown key) (reached h)))
             else ""
        else if timePasses q
             then ""
             else search (hooks (step p (MenuKeydown key) (reached h))))
  /\ timers (run q (step p (MenuKeydown key) (reached h)))
     = (if 0 <? clearSearchAfter p
        then if elapsed q <? clearSearchAfter p
             then timers (step p (MenuKeydown key) (reached h))
             else []
        else if timePasses q
             then []
             else timers (step p (MenuKeydown key) (reached h)))
  /\ (forall p' ev w,
        search (hooks w) <> "" ->
        search (hooks (step p' ev w)) = "" ->
        exists ms t, ev = Elapse ms /\ In t (timers w)
                     /\ dueAt t <= now w + Z.max 0 ms).
Proof.
  intros Hs Hkey Hq.
  set (w := reached h). set (w1 := step p (MenuKeydown key) w).
  assert (Hinv : timerInv w)
    by (apply run_keeps_timerInv, initialWorld_timerInv).
  destruct (typedChar_parts key Hkey) as [Ha Hlen].
  destruct (keystroke_restarts_timer p w key Hs Ha Hlen Hinv)
    as (Hb & Ht & _ & Hnow).
  fold w1 in Hb, Ht, Hnow.
  destruct (quiet_run_pending q Hq w1 _ Ht) as (Hs2 & Ht2).
  simpl dueAt in Hs2, Ht2. rewrite Hnow in Hs2, Ht2.
  replace (now w + Z.max 0 (clearSearchAfter p) - now w)
    with (Z.max 0 (clearSearchAfter p)) in Hs2, Ht2 by lia.
  rewrite runsOut_spec in Hs2, Ht2.
  assert (Hshape : forall (A : Type) (kept gone : A),
            (if (if 0 <? Z.max 0 (clearSearchAfter p)
                 then Z.max 0 (clearSearchAfter p) <=? elapsed q
                 else timePasses q)
             then gone else kept)
            = (if 0 <? clearSearchAfter p
               then if elapsed q <? clearSearchAfter p then kept else gone
               else if timePasses q then gone else kept)).
  { intros A kept gone.
    destruct (Z.ltb_spec 0 (clearSearchAfter p)) as [Hc|Hc].
    - rewrite (Z.max_r 0 (clearSearchAfter p)) by lia.
      destruct (Z.ltb_spec 0 (clearSearchAfter p)); [|lia].
      destruct (Z.leb_spec (clearSearchAfter p) (elapsed q));
        destruct (Z.ltb_spec (elapsed q) (clearSearchAfter p)); lia || reflexivity.
    - rewrite (Z.max_l 0 (clearSearchAfter p)) by lia. reflexivity. }
  rewrite Hshape in Hs2, Ht2.
  split; [now apply timerInv_at_most_one|].
  split; [apply run_known, initialWorld_known|].
  split; [reflexivity|].
  split; [exact Hb|]. split; [exact Ht|].
  split; [exact Hs2|]. split; [rewrite Ht; exact Ht2|].
  intros p' ev w'. apply only_a_due_timer_empties.
Qed.

Lemma C7_buffer_is_cleared_by_the_timer_witness :
  search (hooks (step fruits (MenuKeydown "a") (reached typedB))) = "ba"
  /\ search (hooks (run busyPause (step fruits (MenuKeydown "a") (reached typedB))))
     = "ba"
  /\ List.length
       (timers (run busyPause (step fruits (MenuKeydown "a") (reached typedB))))
     = 1%nat
  /\ search (hooks (run (busyPause ++ [(fruits, Elapse 1)])
                        (step fruits (MenuKeydown "a") (reached typedB))))
     = ""
  /\ timers (run (busyPause ++ [(fruits, Elapse 1)])
                 (step fruits (MenuKeydown "a") (reached typedB)))
     = [].
Proof.
  destruct (C7_buffer_is_cleared_by_the_timer typedB busyPause fruits "a"
              eq_refl eq_refl)
    as (_ & _ & _ & Hbuf & _ & Hkept & Htimer & _).
  - repeat constructor.
  - destruct (C7_buffer_is_cleared_by_the_timer typedB
                (busyPause ++ [(fruits, Elapse 1)]) fruits "a" eq_refl eq_refl)
      as (_ & _ & _ & _ & _ & Hgone & Hnone & _).
    + repeat constructor.
    + split; [exact Hbuf|]. split; [exact Hkept|].
      split; [now rewrite Htimer|]. split; [exact Hgone|exact Hnone].
Defined.
